(** * ci-fix-demo: the utility function library of [src/index.js]

    A shallow embedding of the five synchronous functions exported by
    [src/index.js] ([add], [multiply], [factorial], [getValueOrDefault],
    [getNestedProperty]), the properties of the specification proved or
    refuted on it, and the fragment of the ECMAScript semantics the
    functions rely on:

    - the Number type is IEEE 754 binary64, taken from the Standard
      Library's [SpecFloat] (precision 53, infinities at exponent 1024),
      so rounding, signed zeros, infinities and NaN are the real ones;
    - language values are the primitives and objects; an object is a
      finite map of own properties (data or accessor) and a prototype link,
      read with the ordinary [[Get]] walk along the prototype chain;
    - a call either returns a value or throws ([outcome]); a recursion
      that might not terminate is given fuel and returns [None] when the
      fuel runs out;
    - a property read can run code that is the caller's, a getter or the
      [[Get]] of an exotic object such as a Proxy: [Effects] has the reads
      with that code as a parameter, over a state that the code keeps.
      In the plain values a getter is known by the outcome of one call. *)

From Stdlib Require Import ZArith Bool Lia.
From Stdlib Require Import Floats.SpecFloat.
From stdpp Require Import base option strings gmap.

Local Open Scope Z_scope.
Set Warnings "-register-all".

(** ** The Number type *)

Module Number.

(** binary64: 53 bits of precision, exponent of the infinities 1024. *)
Definition prec : Z := 53.
Definition emax : Z := 1024.

Definition number : Type := spec_float.

(** The number denoted by an integer literal: the integer rounded to the
    nearest binary64 value, ties to even. *)
Definition of_Z (n : Z) : number := binary_normalize prec emax n 0 false.

Definition NaN : number := S754_nan.
Definition Infinity : number := S754_infinity false.
Definition neg_zero : number := S754_zero true.

(** A [spec_float] is a Number when its mantissa and exponent are the
    canonical ones of binary64. *)
Definition is_number (x : number) : bool := valid_binary prec emax x.

Definition is_finite (x : number) : bool :=
  match x with
  | S754_zero _ | S754_finite _ _ _ => true
  | S754_infinity _ | S754_nan => false
  end.

Definition is_nan (x : number) : bool :=
  match x with S754_nan => true | _ => false end.

(** [a + b], [a - b], [a * b] on Numbers. *)
Definition add (x y : number) : number := SFadd prec emax x y.
Definition sub (x y : number) : number := SFsub prec emax x y.
Definition mul (x y : number) : number := SFmul prec emax x y.

(** [a < b] and [a === b] on Numbers: NaN compares false with
    everything, the two zeros are equal. *)
Definition lt (x y : number) : bool := SFltb x y.
Definition strict_equals (x y : number) : bool := SFeqb x y.

(** The exact integer a Number stands for, when it stands for one. *)
Definition to_Z (x : number) : option Z :=
  match x with
  | S754_zero _ => Some 0
  | S754_finite s m e =>
      if 0 <=? e then Some (cond_Zopp s (Zpos m * 2 ^ e))
      else if Zpos m mod 2 ^ (- e) =? 0
           then Some (cond_Zopp s (Zpos m / 2 ^ (- e)))
           else None
  | S754_infinity _ | S754_nan => None
  end.

(** [Number.MAX_SAFE_INTEGER]: below [2 ^ 53] every integer is a Number. *)
Definition MAX_SAFE_INTEGER : Z := 2 ^ 53 - 1.

(** Exponent and mantissa of the Number that a positive integer below
    [2 ^ 53] is: the integer shifted left to 53 binary digits. *)
Definition integer_exponent (n : Z) : Z := Zdigits2 n - 53.
Definition integer_mantissa (n : Z) : positive :=
  Z.to_pos (n * 2 ^ (- integer_exponent n)).

(** The Numbers that a non-negative integer can be, and that
    subtracting one keeps inside: an integer below [2 ^ 53], a normal
    number with a positive exponent (an integer from [2 ^ 53] on), or
    the overflow [Infinity]. *)
Definition nonneg_integral (x : number) : Prop :=
  (exists k, 0 <= k < 2 ^ 53 /\ x = of_Z k)
  \/ (exists m e, x = S754_finite false m e /\ Zpos (digits2_pos m) = 53 /\ 1 <= e <= 971)
  \/ x = Infinity.

(** The mantissa [M], of [k] binary digits more than 53, rounded to 53
    digits: to nearest, ties to even. *)
Definition rounded_mantissa (M : Z) (k : Z) : Z :=
  round_nearest_even (M / 2 ^ k)
    (loc_of_shr_record {| shr_m := M / 2 ^ k;
                          shr_r := Z.testbit M (k - 1);
                          shr_s := negb (M mod 2 ^ (k - 1) =? 0) |}).

(** The Numbers from [2^53 + 4] on: the normal numbers with a positive
    exponent, less [2^53] and [2^53 + 2], and [Infinity]. *)
Definition beyond_safe (x : number) : Prop :=
  x = Infinity
  \/ exists m e, x = S754_finite false m e /\ Zpos (digits2_pos m) = 53
                 /\ 1 <= e <= 971 /\ (e = 1 -> 2 ^ 52 + 2 <= Zpos m).

End Number.

Abbreviation number := Number.number.

Declare Scope number_scope.
Delimit Scope number_scope with num.
Bind Scope number_scope with Number.number.
Infix "+" := Number.add : number_scope.
Infix "-" := Number.sub : number_scope.
Infix "*" := Number.mul : number_scope.
Infix "<?" := Number.lt : number_scope.
Infix "===" := Number.strict_equals (at level 70, no associativity) : number_scope.

(** ** Outcome of a call *)

(** The exceptions of this program: [new Error(message)], thrown by
    [factorial], and the [TypeError] of reading a property of [null] or
    [undefined]. *)
Inductive exception : Type :=
| Error (message : string)
| TypeError.

(** A call returns a value or throws. *)
Inductive outcome (A : Type) : Type :=
| Return (a : A)
| Throw (e : exception).

Arguments Return {A} a.
Arguments Throw {A} e.

(** ** [add], [multiply] *)

(** [export function add(a, b) { return a + b; }] *)
Definition add (a b : number) : number := (a + b)%num.

(** [export function multiply(a, b) { return a * b; }] *)
Definition multiply (a b : number) : number := (a * b)%num.

(** ** [factorial] *)

Definition negative_message : string :=
  "Factorial not defined for negative numbers".

(** [[
export function factorial(n) {
  if (n < 0) throw new Error('Factorial not defined for negative numbers');
  if (n === 0 || n === 1) return 1;
  return n * factorial(n - 1);
}
]]
    The recursion is on a Number, where [n - 1] need not be smaller than
    [n]; [fuel] bounds the depth of the recursion and [None] says that it
    was not enough. *)
Fixpoint factorial (fuel : nat) (n : number) : option (outcome number) :=
  match fuel with
  | O => None
  | S fuel' =>
      if (n <? Number.of_Z 0)%num then Some (Throw (Error negative_message))
      else if (n === Number.of_Z 0)%num || (n === Number.of_Z 1)%num
      then Some (Return (Number.of_Z 1))
      else match factorial fuel' (n - Number.of_Z 1)%num with
           | Some (Return r) => Some (Return (n * r)%num)
           | Some (Throw e) => Some (Throw e)
           | None => None
           end
  end.

(** The mathematical factorial, on integers. *)
Fixpoint fact (n : nat) : Z :=
  match n with
  | O => 1
  | S k => Z.of_nat n * fact k
  end.

(** ** Language values *)

(** Values are the primitives and objects (functions and arrays are
    objects).  An object has own properties, keyed by name, and a prototype
    ([None] for a [null] prototype); a property holds a value or is an
    accessor, whose getter is modelled by the outcome of calling it. *)
Inductive Value : Type :=
| VUndefined
| VNull
| VBoolean (b : bool)
| VNumber (x : number)
| VBigInt (n : Z)
| VString (s : string)
| VSymbol (id : positive)
| VObject (o : object)
with object : Type :=
| Object (properties : gmap string property) (prototype : option object)
with property : Type :=
| DataProperty (v : Value)
| AccessorProperty (get : outcome Value).

(** [value == null]: the value is [null] or [undefined]. *)
Definition is_nullish (v : Value) : bool :=
  match v with
  | VUndefined | VNull => true
  | _ => false
  end.

(** GetOwnProperty: the property that the object itself has under [key]. *)
Definition GetOwnProperty (o : object) (key : string) : option property :=
  match o with
  | Object properties _ => properties !! key
  end.

(** OrdinaryGet: the own property if there is one, otherwise the same
    question to the prototype, [undefined] at the end of the chain. *)
Fixpoint Get (o : object) (key : string) : outcome Value :=
  match o with
  | Object properties prototype =>
      match properties !! key with
      | Some (DataProperty v) => Return v
      | Some (AccessorProperty get) => get
      | None =>
          match prototype with
          | Some parent => Get parent key
          | None => Return VUndefined
          end
      end
  end.

(** HasProperty: is [key] found on the object or along its chain. *)
Fixpoint HasProperty (o : object) (key : string) : bool :=
  match o with
  | Object properties prototype =>
      match properties !! key with
      | Some _ => true
      | None =>
          match prototype with
          | Some parent => HasProperty parent key
          | None => false
          end
      end
  end.

(** The property that a read of [key] finds: the own one, or the first one
    along the prototype chain. *)
Fixpoint find_property (o : object) (key : string) : option property :=
  match o with
  | Object properties prototype =>
      match properties !! key with
      | Some p => Some p
      | None =>
          match prototype with
          | Some parent => find_property parent key
          | None => None
          end
      end
  end.

Section Host.

(** The wrapper object the host gives a primitive other than [null] and
    [undefined] when a property is read from it (its own properties, such
    as the length and the indices of a string, and the built-in prototype
    behind it).  The built-in objects belong to the runtime, not to the
    repository, and are a parameter here. *)
Variable wrapper : Value -> object.

(** ToObject: [null] and [undefined] have no properties to read. *)
Definition ToObject (v : Value) : outcome object :=
  match v with
  | VUndefined | VNull => Throw TypeError
  | VObject o => Return o
  | VBoolean _ | VNumber _ | VBigInt _ | VString _ | VSymbol _ => Return (wrapper v)
  end.

(** GetV: the member access [v[key]]. *)
Definition GetV (v : Value) (key : string) : outcome Value :=
  match ToObject v with
  | Return o => Get o key
  | Throw e => Throw e
  end.

(** [[
export function getNestedProperty(obj, prop) {
  return obj?.nested?.[prop];
}
]]
    An optional chain stops with [undefined] at the first link that is
    [null] or [undefined].  [prop] is a property name, a string: the
    conversion of any other value to a property key is the host's. *)
Definition getNestedProperty (obj : Value) (prop : string) : outcome Value :=
  if is_nullish obj then Return VUndefined
  else match GetV obj "nested" with
       | Throw e => Throw e
       | Return nested =>
           if is_nullish nested then Return VUndefined
           else GetV nested prop
       end.

End Host.

(** [[
export function getValueOrDefault(value, defaultValue) {
  return value ?? defaultValue;
}
]] *)
Definition getValueOrDefault (value defaultValue : Value) : Value :=
  if is_nullish value then defaultValue else value.

(** ** Inputs of the test suite and of the examples below *)

(** An object literal with the given own data properties. *)
Definition literal (prototype : option object) (fields : list (string * Value)) : object :=
  Object (list_to_map (prod_map id DataProperty <$> fields)) prototype.

(** [{ nested: { foo: 'bar' } }] of [tests/index.test.js]. *)
Definition test_obj (prototype : option object) : Value :=
  VObject (literal prototype
    [("nested", VObject (literal prototype [("foo", VString "bar")]))]).

(** [{ get nested() { throw new Error('boom'); } }] *)
Definition throwing_obj : Value :=
  VObject (Object {[ "nested" := AccessorProperty (Throw (Error "boom")) ]} None).

(** The part of the host's [Object.prototype] that the examples use:
    every object literal inherits its method [toString], a function
    object (whose own properties are left out). *)
Definition toString_function : object := Object ∅ None.
Definition Object_prototype : object :=
  Object {[ "toString" := DataProperty (VObject toString_function) ]} None.

(** [{ nested: {} }] *)
Definition empty_nested_obj : Value :=
  VObject (literal (Some Object_prototype)
    [("nested", VObject (literal (Some Object_prototype) []))]).

(** [{ nested: null }] *)
Definition null_nested_obj : Value :=
  VObject (literal None [("nested", VNull)]).

(** A host whose wrapper objects have no properties at all. *)
Definition bare_wrapper (v : Value) : object := Object ∅ None.

(** [-0.5] *)
Definition neg_half : number := S754_finite true 4503599627370496 (-53).

(** [2 ** 53 + 4] and [2 ** 54]: integers that are Numbers and that
    subtracting one leaves unchanged. *)
Definition stuck_integer : Z := 2 ^ 53 + 4.
Definition stuck_power : Z := 2 ^ 54.

(** ** Further notions on Numbers *)

(** The sign bit of the Number of a non-zero integer. *)
Definition safe_sign (n : Z) : bool := n <? 0.

(** [x <= y] on Numbers. *)
Definition number_le (x y : number) : bool := SFleb x y.

(** The integer part of a positive Number below [2^53]. *)
Definition integer_part (x : number) : Z :=
  match x with
  | S754_finite _ m e => Zpos m / 2 ^ (- e)
  | _ => 0
  end.

(** The positive Numbers that are no integers. *)
Definition fractional (x : number) : Prop :=
  exists m e, x = S754_finite false m e
              /\ canonical_mantissa Number.prec Number.emax m e = true
              /\ e < 0 /\ Zpos m mod 2 ^ (- e) <> 0.

(** The normal Numbers from one on, and [Infinity]. *)
Definition from_one (r : number) : Prop :=
  r = Number.Infinity
  \/ exists m e, r = S754_finite false m e /\ Zpos (digits2_pos m) = 53 /\ -52 <= e.

(** [2.5] *)
Definition two_and_a_half : number := S754_finite false 5629499534213120 (-51).

(** ** Property reads that run code *)

(** A read of a property can run code that is not the repository's: the
    getter of an accessor property, which is given the value the read
    started from as its [this]; and the [[Get]] of an exotic object, such
    as the [get] trap of a Proxy, which is given the key as well.  Such
    code can keep state, can return a different value at every call, and
    can throw.  It is a parameter here: [code] names the functions,
    [state] is whatever they can see and change, and [call] runs one. *)
Module Effects.

Section UserCode.

Variable code : Type.

Inductive Value : Type :=
| VUndefined
| VNull
| VBoolean (b : bool)
| VNumber (x : number)
| VBigInt (n : Z)
| VString (s : string)
| VSymbol (id : positive)
| VObject (o : object)
with object : Type :=
| Object (properties : gmap string property) (prototype : option object)
| Exotic (get : code)
with property : Type :=
| DataProperty (v : Value)
| AccessorProperty (getter : code).

Definition is_nullish (v : Value) : bool :=
  match v with
  | VUndefined | VNull => true
  | _ => false
  end.

(** What a read of [key] from [o] comes to, before any code runs: the
    value of the data property found on the object or along its prototype
    chain ([undefined] when none is found), or the code to run: the getter
    of the accessor property found, or the [[Get]] of the exotic object the
    search has reached. *)
Inductive resolution : Type :=
| Found (v : Value)
| Runs (c : code).

Fixpoint resolve (o : object) (key : string) : resolution :=
  match o with
  | Object properties prototype =>
      match properties !! key with
      | Some (DataProperty v) => Found v
      | Some (AccessorProperty getter) => Runs getter
      | None =>
          match prototype with
          | Some parent => resolve parent key
          | None => Found VUndefined
          end
      end
  | Exotic get => Runs get
  end.

Variable state : Type.
Variable call : code -> Value -> string -> state -> outcome Value * state.
Variable wrapper : Value -> object.

(** [[Get]] with its receiver: OrdinaryGet on an ordinary object, the
    object's own code on an exotic one. *)
Fixpoint Get (o : object) (key : string) (receiver : Value) (s : state)
  : outcome Value * state :=
  match o with
  | Object properties prototype =>
      match properties !! key with
      | Some (DataProperty v) => (Return v, s)
      | Some (AccessorProperty getter) => call getter receiver key s
      | None =>
          match prototype with
          | Some parent => Get parent key receiver s
          | None => (Return VUndefined, s)
          end
      end
  | Exotic get => call get receiver key s
  end.

Definition ToObject (v : Value) : outcome object :=
  match v with
  | VUndefined | VNull => Throw TypeError
  | VObject o => Return o
  | VBoolean _ | VNumber _ | VBigInt _ | VString _ | VSymbol _ => Return (wrapper v)
  end.

(** GetV: the member access [v[key]]; the receiver is [v] itself. *)
Definition GetV (v : Value) (key : string) (s : state) : outcome Value * state :=
  match ToObject v with
  | Return o => Get o key v s
  | Throw e => (Throw e, s)
  end.

(** [obj?.nested?.[prop]], the two reads in their order, each in the state
    the code before it has left. *)
Definition getNestedProperty (obj : Value) (prop : string) (s : state)
  : outcome Value * state :=
  if is_nullish obj then (Return VUndefined, s)
  else match GetV obj "nested" s with
       | (Throw e, s') => (Throw e, s')
       | (Return nested, s') =>
           if is_nullish nested then (Return VUndefined, s')
           else GetV nested prop s'
       end.

(** The result of [getNestedProperty] when neither read runs code, [None]
    when one of them would. *)
Definition data_result (obj : Value) (prop : string) : option Value :=
  if is_nullish obj then Some VUndefined
  else match ToObject obj with
       | Throw _ => None
       | Return o =>
           match resolve o "nested" with
           | Runs _ => None
           | Found nested =>
               if is_nullish nested then Some VUndefined
               else match ToObject nested with
                    | Throw _ => None
                    | Return o' =>
                        match resolve o' prop with
                        | Runs _ => None
                        | Found v => Some v
                        end
                    end
           end
       end.

End UserCode.

Arguments VUndefined {code}.
Arguments VNull {code}.
Arguments VBoolean {code} b.
Arguments VNumber {code} x.
Arguments VBigInt {code} n.
Arguments VString {code} s.
Arguments VSymbol {code} id.
Arguments VObject {code} o.
Arguments Object {code} properties prototype.
Arguments Exotic {code} get.
Arguments DataProperty {code} v.
Arguments AccessorProperty {code} getter.
Arguments Found {code} v.
Arguments Runs {code} c.
Arguments is_nullish {code} v.
Arguments resolve {code} o key.
Arguments Get {code state} call o key receiver s.
Arguments ToObject {code} wrapper v.
Arguments GetV {code state} call wrapper v key s.
Arguments getNestedProperty {code state} call wrapper obj prop s.
Arguments data_result {code} wrapper obj prop.

(** A getter that counts its calls, [{ nested: { get count() { return ++calls } } }]
    with [calls] as the state, and a host whose wrapper objects have no
    properties. *)
Definition counting_call (c : unit) (this : Value unit) (key : string) (calls : Z)
  : outcome (Value unit) * Z :=
  (Return (VNumber (Number.of_Z (calls + 1))), calls + 1).

Definition counting_obj : Value unit :=
  VObject (Object {[ "nested" :=
    DataProperty (VObject (Object {[ "count" := AccessorProperty tt ]} None)) ]} None).

(** [{ nested: { foo: 'bar' } }] *)
Definition test_obj : Value unit :=
  VObject (Object {[ "nested" :=
    DataProperty (VObject (Object {[ "foo" := DataProperty (VString "bar") ]} None)) ]} None).

Definition bare_wrapper {code : Type} (v : Value code) : object code := Object ∅ None.

(** A revoked Proxy: every read of it throws a [TypeError]. *)
Definition revoked_call (c : unit) (this : Value unit) (key : string) (s : unit)
  : outcome (Value unit) * unit :=
  (Throw TypeError, s).

Definition revoked_proxy : Value unit := VObject (Exotic tt).

End Effects.

(** * Properties *)

(** ** Arithmetic of Numbers *)

Module NumberFacts.
Import Number.

(** Addition and multiplication of Numbers are commutative, NaN, the
    infinities and the signed zeros included. *)
Lemma add_comm (x y : number) : (x + y)%num = (y + x)%num.
Proof.
  unfold Number.add.
  destruct x as [sx|sx| |sx mx ex], y as [sy|sy| |sy my ey];
    try reflexivity; try (destruct sx, sy; reflexivity).
  unfold SFadd. rewrite (Z.min_comm ey ex). f_equal. apply Z.add_comm.
Qed.

Lemma mul_comm (x y : number) : (x * y)%num = (y * x)%num.
Proof.
  unfold Number.mul.
  destruct x as [sx|sx| |sx mx ex], y as [sy|sy| |sy my ey];
    try reflexivity; try (destruct sx, sy; reflexivity).
  unfold SFmul. now rewrite (xorb_comm sy sx), (Pos.mul_comm my mx), (Z.add_comm ey ex).
Qed.

(** [x === x] for every Number but NaN. *)
Lemma strict_equals_refl (x : number) :
  is_nan x = false -> (x === x)%num = true.
Proof.
  unfold strict_equals, SFeqb.
  destruct x as [s|s| |s m e]; try discriminate; intros _; simpl.
  - reflexivity.
  - now destruct s.
  - rewrite Z.compare_refl, Pos.compare_cont_refl. now destruct s.
Qed.

Lemma strict_equals_eq (x y : number) :
  x = y -> is_nan x = false -> (x === y)%num = true.
Proof. intros <-. apply strict_equals_refl. Qed.

(** [x + 0] is [x], except that [-0 + 0] is [+0]. *)
Lemma add_zero_r (x : number) : x <> neg_zero -> (x + of_Z 0)%num = x.
Proof.
  destruct x as [[]|s| |s m e]; intros Hx; try reflexivity.
  now elim Hx.
Qed.

Lemma add_zero_r_strict (x : number) :
  is_nan x = false -> ((x + of_Z 0)%num === x)%num = true.
Proof.
  destruct x as [[]|s| |s m e]; intros Hx; try discriminate; try reflexivity;
    now apply strict_equals_refl.
Qed.

(** [x * 0] is a zero for a finite [x]. *)
Lemma mul_zero_r (x : number) :
  is_finite x = true -> ((x * of_Z 0)%num === of_Z 0)%num = true.
Proof. destruct x as [s|s| |s m e]; intros Hx; try discriminate; reflexivity. Qed.

Lemma mul_zero_r_sign (x : number) :
  is_finite x = true -> ((x * of_Z 0)%num = of_Z 0 \/ (x * of_Z 0)%num = neg_zero).
Proof.
  destruct x as [[]|s| |[] m e]; intros Hx; try discriminate; cbn; auto.
Qed.

(** *** Rounding of integers *)

(** The iteration of [SpecFloat] is the one of [Pos]. *)
Lemma iter_pos_iter {A} (f : A -> A) (k : positive) (x : A) :
  SpecFloat.iter_pos f k x = Pos.iter f x k.
Proof.
  revert x. induction k as [k IH|k IH|]; intros x; simpl; try reflexivity.
  - rewrite !IH. now rewrite !Pos.iter_swap.
  - now rewrite !IH.
Qed.

Lemma iter_xO_value (p k : positive) :
  Zpos (Pos.iter xO p k) = Zpos p * 2 ^ Zpos k.
Proof.
  induction k as [|k IH] using Pos.peano_ind.
  - simpl. lia.
  - rewrite Pos.iter_succ, Pos2Z.inj_xO, IH, Pos2Z.inj_succ, Z.pow_succ_r by lia. lia.
Qed.

(** [digits2_pos p] is the number of binary digits of [p]. *)
Lemma digits2_bounds (p : positive) :
  2 ^ (Zpos (digits2_pos p) - 1) <= Zpos p < 2 ^ Zpos (digits2_pos p).
Proof.
  induction p as [p IH|p IH|]; simpl digits2_pos; [| |simpl; lia];
    rewrite Pos2Z.inj_succ;
    replace (Z.succ (Zpos (digits2_pos p)) - 1) with (Zpos (digits2_pos p)) by lia;
    rewrite Z.pow_succ_r by lia;
    assert (2 ^ Zpos (digits2_pos p) = 2 * 2 ^ (Zpos (digits2_pos p) - 1))
      by (rewrite <- Z.pow_succ_r by lia; f_equal; lia);
    lia.
Qed.

Lemma digits2_unique (p : positive) (d : Z) :
  2 ^ (d - 1) <= Zpos p < 2 ^ d -> Zpos (digits2_pos p) = d.
Proof.
  intros [Hlo Hhi]. pose proof (digits2_bounds p) as [Hlo' Hhi'].
  assert (0 < d).
  { destruct (Z.lt_ge_cases 0 d) as [|Hd]; [easy|].
    destruct (Z.eq_dec d 0) as [->|]; [simpl in Hhi; lia|].
    rewrite Z.pow_neg_r in Hhi by lia. lia. }
  destruct (Z.lt_trichotomy (Zpos (digits2_pos p)) d) as [Hlt|[Heq|Hgt]]; [|easy|].
  - assert (2 ^ Zpos (digits2_pos p) <= 2 ^ (d - 1)) by (apply Z.pow_le_mono_r; lia). lia.
  - assert (2 ^ d <= 2 ^ (Zpos (digits2_pos p) - 1)) by (apply Z.pow_le_mono_r; lia). lia.
Qed.

Lemma digits2_shift (a q : positive) (j : Z) :
  0 <= j -> Zpos q = Zpos a * 2 ^ j ->
  Zpos (digits2_pos q) = Zpos (digits2_pos a) + j.
Proof.
  intros Hj Hq. apply digits2_unique. rewrite Hq.
  pose proof (digits2_bounds a) as [Hlo Hhi].
  replace (Zpos (digits2_pos a) + j - 1) with (Zpos (digits2_pos a) - 1 + j) by lia.
  rewrite !Z.pow_add_r by lia.
  assert (0 < 2 ^ j) by (apply Z.pow_pos_nonneg; lia).
  split; [apply Z.mul_le_mono_nonneg_r; lia | apply Z.mul_lt_mono_pos_r; lia].
Qed.

(** Shifting out low zeros loses nothing. *)
Lemma shr_1_double (a : Z) :
  0 <= a -> shr_1 (Build_shr_record (a * 2) false false) = Build_shr_record a false false.
Proof. destruct a as [|a|a]; [reflexivity| |lia]. intros _. now rewrite Z.mul_comm. Qed.

Lemma shr_exact (k : positive) (a : Z) :
  0 <= a ->
  SpecFloat.iter_pos shr_1 k (Build_shr_record (a * 2 ^ Zpos k) false false)
  = Build_shr_record a false false.
Proof.
  rewrite iter_pos_iter. revert a.
  induction k as [|k IH] using Pos.peano_ind; intros a Ha.
  - simpl Pos.iter. change (2 ^ 1) with 2. now apply shr_1_double.
  - rewrite Pos.iter_succ_r, Pos2Z.inj_succ, Z.pow_succ_r by lia.
    replace (a * (2 * 2 ^ Zpos k)) with (a * 2 ^ Zpos k * 2) by lia.
    rewrite shr_1_double by (apply Z.mul_nonneg_nonneg; [lia | apply Z.pow_nonneg; lia]).
    now apply IH.
Qed.

(** A mantissa of 53 digits with its exponent in range is left as it is. *)
Lemma binary_round_aux_canonical (s : bool) (m : positive) (e : Z) :
  Zpos (digits2_pos m) = 53 -> -1074 <= e <= 971 ->
  binary_round_aux prec emax s (Zpos m) e loc_Exact = S754_finite s m e.
Proof.
  intros Hd He.
  unfold binary_round_aux, shr_fexp, Zdigits2, shr_record_of_loc, fexp, emin, prec, emax.
  rewrite Hd.
  replace (Z.max (53 + e - 53) (3 - 1024 - 53) - e) with 0 by lia.
  cbn [shr shr_m shr_r shr_s loc_of_shr_record round_nearest_even].
  rewrite Hd.
  replace (Z.max (53 + e - 53) (3 - 1024 - 53) - e) with 0 by lia.
  cbn [shr shr_m].
  replace (e <=? 1024 - 53) with true by (symmetry; apply Z.leb_le; lia).
  reflexivity.
Qed.

(** Rounding a mantissa [a * 2 ^ j], where [a] has at most 53 digits, is
    exact: the result is [a] shifted to 53 digits. *)
Lemma binary_round_exact (s : bool) (a q t : positive) (j e : Z) :
  Zpos (digits2_pos a) <= 53 ->
  0 <= j ->
  Zpos q = Zpos a * 2 ^ j ->
  Zpos t = Zpos a * 2 ^ (53 - Zpos (digits2_pos a)) ->
  -1074 <= e + j + Zpos (digits2_pos a) - 53 <= 971 ->
  binary_round prec emax s q e = S754_finite s t (e + j + Zpos (digits2_pos a) - 53).
Proof.
  intros Hd Hj Hq Ht He.
  set (d := Zpos (digits2_pos a)) in *.
  assert (Hdq : Zpos (digits2_pos q) = d + j) by now apply digits2_shift.
  assert (Hdt : Zpos (digits2_pos t) = 53).
  { rewrite (digits2_shift a t (53 - d)); fold d; lia. }
  unfold binary_round, shl_align, fexp, emin, prec, emax.
  rewrite Hdq. clearbody d.
  replace (Z.max (d + j + e - 53) (3 - 1024 - 53)) with (e + j + d - 53) by (clear - He; lia).
  destruct (e + j + d - 53 - e) as [|c|c] eqn:Hc.
  - (* the mantissa has 53 digits already *)
    assert (q = t) as -> by (apply Pos2Z.inj; rewrite Hq, Ht; do 2 f_equal; lia).
    replace (e + j + d - 53) with e by lia.
    apply binary_round_aux_canonical; [easy|lia].
  - (* more than 53 digits: the low zeros are shifted out *)
    unfold binary_round_aux, shr_fexp, Zdigits2, shr_record_of_loc, fexp, emin, prec, emax.
    rewrite Hdq.
    replace (Z.max (d + j + e - 53) (3 - 1024 - 53) - e) with (Zpos c) by (clear - He Hc; lia).
    cbn [shr].
    replace (Zpos q) with (Zpos t * 2 ^ Zpos c).
    2:{ rewrite Hq, Ht, <- Z.mul_assoc, <- Z.pow_add_r by lia. do 2 f_equal. lia. }
    rewrite shr_exact by lia.
    cbn [shr_m shr_r shr_s loc_of_shr_record round_nearest_even].
    rewrite Hdt.
    replace (Z.max (53 + (e + Zpos c) - 53) (3 - 1024 - 53) - (e + Zpos c)) with 0 by (clear - He Hc; lia).
    cbn [shr shr_m].
    replace (e + Zpos c <=? 1024 - 53) with true by (symmetry; apply Z.leb_le; clear - He Hc; lia).
    f_equal. lia.
  - (* fewer than 53 digits: shifted left *)
    assert (Pos.iter xO q c = t) as ->.
    { apply Pos2Z.inj. rewrite iter_xO_value, Hq, Ht, <- Z.mul_assoc, <- Z.pow_add_r by lia.
      do 2 f_equal. lia. }
    apply binary_round_aux_canonical; [easy|lia].
Qed.

(** The Number of an integer [1 <= n < 2^53] is [n] itself. *)
Lemma mantissa_value (n : Z) :
  1 <= n < 2 ^ 53 -> Zpos (integer_mantissa n) = n * 2 ^ (- integer_exponent n).
Proof.
  intros Hn. unfold integer_mantissa. rewrite Z2Pos.id; [easy|].
  apply Z.mul_pos_pos; [lia|]. apply Z.pow_pos_nonneg; [lia|].
  unfold integer_exponent. destruct n as [|p|p]; try lia. simpl Zdigits2.
  pose proof (digits2_bounds p) as [Hlo _].
  destruct (Z.le_gt_cases (Zpos (digits2_pos p)) 53) as [|Hgt]; [lia|].
  assert (2 ^ 53 <= 2 ^ (Zpos (digits2_pos p) - 1)) by (apply Z.pow_le_mono_r; lia). lia.
Qed.

Lemma digits_safe (p : positive) : Zpos p < 2 ^ 53 -> Zpos (digits2_pos p) <= 53.
Proof.
  intros Hp. pose proof (digits2_bounds p) as [Hlo _].
  destruct (Z.le_gt_cases (Zpos (digits2_pos p)) 53) as [|Hgt]; [lia|].
  assert (2 ^ 53 <= 2 ^ (Zpos (digits2_pos p) - 1)) by (apply Z.pow_le_mono_r; lia). lia.
Qed.

Lemma of_Z_safe (n : Z) :
  1 <= n < 2 ^ 53 ->
  of_Z n = S754_finite false (integer_mantissa n) (integer_exponent n).
Proof.
  intros Hn. pose proof (mantissa_value n Hn) as Hm.
  destruct n as [|p|p]; try lia.
  unfold of_Z, binary_normalize, integer_exponent in *. simpl Zdigits2 in *.
  pose proof (digits_safe p ltac:(lia)) as Hd.
  pose proof (Pos2Z.is_pos (digits2_pos p)).
  rewrite (binary_round_exact false p p (integer_mantissa (Zpos p)) 0 0); try lia.
  - f_equal.
  - rewrite Hm. f_equal. f_equal. lia.
Qed.

Lemma exponent_range (n : Z) : 1 <= n < 2 ^ 53 -> -52 <= integer_exponent n <= 0.
Proof.
  intros Hn. unfold integer_exponent. destruct n as [|p|p]; try lia. simpl Zdigits2.
  pose proof (digits_safe p ltac:(lia)). pose proof (Pos2Z.is_pos (digits2_pos p)). lia.
Qed.

Lemma exponent_ge_2 (n : Z) : 2 <= n < 2 ^ 53 -> -52 < integer_exponent n.
Proof.
  intros Hn. unfold integer_exponent. destruct n as [|p|p]; try lia. simpl Zdigits2.
  pose proof (digits2_bounds p) as [_ Hhi].
  destruct (Z.eq_dec (Zpos (digits2_pos p)) 1) as [E|]; [rewrite E in Hhi; simpl in Hhi; lia|].
  pose proof (Pos2Z.is_pos (digits2_pos p)). lia.
Qed.

(** Aligning to a smaller exponent multiplies the mantissa. *)
Lemma shl_align_value (m : positive) (e e' : Z) :
  e' <= e -> Zpos (fst (shl_align m e e')) = Zpos m * 2 ^ (e - e').
Proof.
  intros He. unfold shl_align.
  destruct (e' - e) as [|c|c] eqn:Hc; simpl fst.
  - replace (e - e') with 0 by lia. simpl. lia.
  - lia.
  - rewrite iter_xO_value. do 2 f_equal. lia.
Qed.

Lemma of_Z_1 : of_Z 1 = S754_finite false 4503599627370496 (-52).
Proof. reflexivity. Qed.

(** Below [2^53], subtracting one is exact. *)
Lemma sub_one_safe (n : Z) :
  1 <= n < 2 ^ 53 -> (of_Z n - of_Z 1)%num = of_Z (n - 1).
Proof.
  intros Hn. rewrite (of_Z_safe n Hn), of_Z_1.
  pose proof (exponent_range n Hn) as He.
  pose proof (mantissa_value n Hn) as Hm.
  unfold Number.sub, SFsub.
  rewrite Z.min_r by lia.
  cbn [cond_Zopp].
  rewrite shl_align_value by lia.
  rewrite shl_align_value by lia.
  rewrite Hm, <- Z.mul_assoc, <- Z.pow_add_r by lia.
  replace (- integer_exponent n + (integer_exponent n - -52)) with 52 by lia.
  replace (-52 - -52) with 0 by lia.
  replace (n * 2 ^ 52 - 4503599627370496 * 2 ^ 0) with ((n - 1) * 2 ^ 52) by (simpl; lia).
  destruct (Z.eq_dec n 1) as [->|Hn1]; [reflexivity|].
  assert (Hn' : 1 <= n - 1 < 2 ^ 53) by lia.
  rewrite (of_Z_safe (n - 1) Hn').
  pose proof (mantissa_value (n - 1) Hn') as Hm'.
  destruct (n - 1) as [|p|p] eqn:Hp; try lia.
  assert (Hq : exists q, Zpos p * 2 ^ 52 = Zpos q) by (exists (p * 2 ^ 52)%positive; reflexivity).
  destruct Hq as [q Hq]. rewrite Hq.
  unfold binary_normalize.
  unfold integer_exponent in *. simpl Zdigits2 in *.
  pose proof (digits_safe p ltac:(lia)) as Hd.
  pose proof (Pos2Z.is_pos (digits2_pos p)).
  rewrite (binary_round_exact false p q (integer_mantissa (Zpos p)) 52 (-52)); try lia.
  - f_equal; lia.
  - rewrite Hm'. do 2 f_equal; lia.
Qed.

(** The tests of [factorial] on the integers below [2^53]. *)
Lemma lt_zero_safe (n : Z) : 0 <= n < 2 ^ 53 -> (of_Z n <? of_Z 0)%num = false.
Proof.
  intros Hn. destruct (Z.eq_dec n 0) as [->|]; [reflexivity|].
  now rewrite of_Z_safe by lia.
Qed.

Lemma eq_zero_safe (n : Z) : 1 <= n < 2 ^ 53 -> (of_Z n === of_Z 0)%num = false.
Proof. intros Hn. now rewrite of_Z_safe by lia. Qed.

Lemma eq_one_safe (n : Z) : 2 <= n < 2 ^ 53 -> (of_Z n === of_Z 1)%num = false.
Proof.
  intros Hn. rewrite of_Z_safe, of_Z_1 by lia.
  pose proof (exponent_ge_2 n Hn) as He.
  unfold strict_equals, SFeqb, SFcompare.
  now replace (integer_exponent n ?= -52) with Gt by (symmetry; apply Z.compare_gt_iff; lia).
Qed.

(** The mantissa after shifts to the right. *)
Lemma shr_1_m (r : shr_record) : 0 <= shr_m r -> shr_m (shr_1 r) = shr_m r / 2.
Proof.
  rewrite <- Z.div2_div. destruct r as [[|[p|p|]|p] r s]; simpl; intros Hr; try reflexivity; lia.
Qed.

Lemma shr_m_iter (k : positive) (r : shr_record) :
  0 <= shr_m r -> shr_m (SpecFloat.iter_pos shr_1 k r) = shr_m r / 2 ^ Zpos k.
Proof.
  rewrite iter_pos_iter. intros Hr.
  induction k as [|k IH] using Pos.peano_ind.
  - simpl Pos.iter. now rewrite shr_1_m.
  - assert (0 < 2 ^ Zpos k) by (apply Z.pow_pos_nonneg; lia).
    rewrite Pos.iter_succ, shr_1_m; rewrite IH.
    + rewrite Pos2Z.inj_succ, Z.pow_succ_r, Z.div_div by lia. f_equal. lia.
    + apply Z.div_pos; lia.
Qed.

Lemma round_nearest_even_bounds (m : Z) (l : location) :
  m <= round_nearest_even m l <= m + 1.
Proof.
  destruct l as [|[]]; simpl; try lia. destruct (Z.even m); lia.
Qed.

(** Rounding a mantissa of at least 53 digits gives a normal number (or
    overflows), whose exponent is the one the digits call for, or one
    more when the mantissa rounds up to a power of two. *)
Lemma binary_round_aux_normal (s : bool) (M : positive) (e0 : Z) :
  53 <= Zpos (digits2_pos M) -> -1074 <= e0 ->
  binary_round_aux prec emax s (Zpos M) e0 loc_Exact = S754_infinity s \/
  exists m e, binary_round_aux prec emax s (Zpos M) e0 loc_Exact = S754_finite s m e /\
    Zpos (digits2_pos m) = 53 /\
    e0 + Zpos (digits2_pos M) - 53 <= e <= e0 + Zpos (digits2_pos M) - 52 /\ e <= 971.
Proof.
  intros HD He0.
  pose proof (digits2_bounds M) as HM.
  set (D := Zpos (digits2_pos M)) in *. clearbody D.
  unfold binary_round_aux.
  (* the first shift leaves a mantissa of 53 digits *)
  assert (H1 : exists r1, shr_fexp prec emax (Zpos M) e0 loc_Exact = (r1, e0 + D - 53)
                          /\ 2 ^ 52 <= shr_m r1 < 2 ^ 53).
  { unfold shr_fexp, Zdigits2, shr_record_of_loc, fexp, emin, prec, emax.
    destruct HM as [Hlo Hhi].
    assert (HDM : Zpos (digits2_pos M) = D) by now apply digits2_unique.
    rewrite HDM.
    replace (Z.max (D + e0 - 53) (3 - 1024 - 53) - e0) with (D - 53) by lia.
    destruct (D - 53) as [|k|k] eqn:Hk; try lia.
    - eexists; split; [cbn [shr]; f_equal; lia|]. cbn [shr_m].
      replace D with 53 in * by lia. simpl in Hlo. lia.
    - eexists; split; [cbn [shr]; f_equal; lia|].
      rewrite shr_m_iter by (simpl; lia). cbn [shr_m].
      assert (0 < 2 ^ Zpos k) by (apply Z.pow_pos_nonneg; lia).
      assert (2 ^ (D - 1) = 2 ^ 52 * 2 ^ Zpos k)
        by (rewrite <- Z.pow_add_r by lia; f_equal; lia).
      assert (2 ^ D = 2 ^ 53 * 2 ^ Zpos k)
        by (rewrite <- Z.pow_add_r by lia; f_equal; lia).
      split.
      + apply Z.div_le_lower_bound; lia.
      + apply Z.div_lt_upper_bound; lia. }
  destruct H1 as (r1 & -> & Hr1).
  pose proof (round_nearest_even_bounds (shr_m r1) (loc_of_shr_record r1)) as Hr2.
  set (m2 := round_nearest_even (shr_m r1) (loc_of_shr_record r1)) in *. clearbody m2.
  set (e1 := e0 + D - 53) in *.
  destruct m2 as [|p|p]; try lia.
  destruct (Z.eq_dec (Zpos p) (2 ^ 53)) as [Hp|Hp].
  - (* rounded up to [2 ^ 53]: one more shift *)
    assert (p = 9007199254740992%positive) as -> by (apply Pos2Z.inj; rewrite Hp; reflexivity).
    clear Hr2 Hp.
    unfold shr_fexp, fexp, emin, prec, emax.
    change (Zdigits2 9007199254740992) with 54.
    replace (Z.max (54 + e1 - 53) (3 - 1024 - 53) - e1) with 1 by lia.
    cbn [shr SpecFloat.iter_pos shr_record_of_loc shr_1 shr_m].
    destruct (e1 + 1 <=? 1024 - 53) eqn:Hle; [right|now left].
    apply Z.leb_le in Hle.
    eexists _, _; split; [reflexivity|]. split; [reflexivity|]. lia.
  - assert (Hdp : Zpos (digits2_pos p) = 53) by (apply digits2_unique; simpl; lia).
    unfold shr_fexp, fexp, emin, prec, emax. simpl Zdigits2. rewrite Hdp.
    replace (Z.max (53 + e1 - 53) (3 - 1024 - 53) - e1) with 0 by lia.
    cbn [shr shr_record_of_loc shr_m].
    destruct (e1 <=? 1024 - 53) eqn:Hle; [right|now left].
    apply Z.leb_le in Hle.
    eexists _, _; split; [reflexivity|]. split; [easy|]. lia.
Qed.

Lemma digits_large (p : positive) : 2 ^ 53 <= Zpos p -> 54 <= Zpos (digits2_pos p).
Proof.
  intros Hp. pose proof (digits2_bounds p) as [_ Hhi].
  destruct (Z.le_gt_cases 54 (Zpos (digits2_pos p))) as [|Hlt]; [easy|].
  assert (2 ^ Zpos (digits2_pos p) <= 2 ^ 53) by (apply Z.pow_le_mono_r; lia). lia.
Qed.

(** An integer of 54 digits or more rounds to a normal number with a
    positive exponent, or overflows. *)
Lemma binary_round_large (s : bool) (p : positive) :
  2 ^ 53 <= Zpos p ->
  binary_round prec emax s p 0 = S754_infinity s \/
  exists m e, binary_round prec emax s p 0 = S754_finite s m e /\
    Zpos (digits2_pos m) = 53 /\ 1 <= e <= 971.
Proof.
  intros Hp. pose proof (digits_large p Hp) as Hd.
  unfold binary_round, shl_align, fexp, emin, prec, emax.
  replace (Z.max (Zpos (digits2_pos p) + 0 - 53) (3 - 1024 - 53) - 0)
    with (Zpos (digits2_pos p) - 53) by lia.
  destruct (Zpos (digits2_pos p) - 53) as [|c|c] eqn:Hc; try lia.
  destruct (binary_round_aux_normal s p 0) as [Hinf|(m & e & Hr & Hm & He & He')]; try lia.
  - now left.
  - right. exists m, e. repeat split; try easy; lia.
Qed.

(** Every non-negative integer is a [nonneg_integral] Number, every
    negative one a Number below zero. *)
Lemma of_Z_nonneg (n : Z) : 0 <= n -> nonneg_integral (of_Z n).
Proof.
  intros Hn. destruct (Z.lt_ge_cases n (2 ^ 53)) as [Hlt|Hge].
  - left. exists n. split; [lia|reflexivity].
  - right. destruct n as [|p|p]; try (simpl in Hge; lia).
    destruct (binary_round_large false p Hge) as [Hinf|(m & e & Hr & Hm & He)].
    + now right.
    + left. now exists m, e.
Qed.

Lemma of_Z_negative (n : Z) : n < 0 -> (of_Z n <? of_Z 0)%num = true.
Proof.
  intros Hn. destruct n as [|p|p]; try lia.
  unfold of_Z at 1, binary_normalize.
  destruct (Z.lt_ge_cases (Zpos p) (2 ^ 53)) as [Hlt|Hge].
  - pose proof (digits_safe p Hlt) as Hd. pose proof (Pos2Z.is_pos (digits2_pos p)).
    assert (Ht : Zpos (Z.to_pos (Zpos p * 2 ^ (53 - Zpos (digits2_pos p))))
                 = Zpos p * 2 ^ (53 - Zpos (digits2_pos p))).
    { apply Z2Pos.id, Z.mul_pos_pos; [lia | apply Z.pow_pos_nonneg; lia]. }
    now rewrite (binary_round_exact true p p _ 0 0 Hd (Z.le_refl 0) ltac:(simpl; lia) Ht) by lia.
  - destruct (binary_round_large true p Hge) as [->|(m & e & -> & _)]; reflexivity.
Qed.

Lemma integral_not_negative (x : number) :
  nonneg_integral x -> (x <? of_Z 0)%num = false.
Proof.
  intros [(k & Hk & ->)|[(m & e & -> & _)| ->]]; try reflexivity.
  now apply lt_zero_safe.
Qed.

Lemma of_Z_normal (m : positive) :
  Zpos (digits2_pos m) = 53 -> of_Z (Zpos m) = S754_finite false m 0.
Proof.
  intros Hm. unfold of_Z, binary_normalize.
  rewrite (binary_round_exact false m m m 0 0); rewrite ?Hm;
    try lia; try reflexivity; try (simpl; lia).
Qed.

(** Subtracting one keeps a Number other than [0] and [1] in
    [nonneg_integral]. *)
Lemma sub_one_integral (x : number) :
  nonneg_integral x -> (x === of_Z 0)%num = false -> (x === of_Z 1)%num = false ->
  nonneg_integral (x - of_Z 1)%num.
Proof.
  intros [(k & Hk & ->)|[(m & e & -> & Hm & He)| ->]] H0 H1.
  - destruct (Z.eq_dec k 0) as [->|]; [discriminate|].
    destruct (Z.eq_dec k 1) as [->|]; [discriminate|].
    rewrite sub_one_safe by lia. left. exists (k - 1). split; [lia|reflexivity].
  - clear H0 H1. rewrite of_Z_1. unfold Number.sub, SFsub.
    rewrite Z.min_r by lia. cbn [cond_Zopp].
    rewrite !shl_align_value by lia.
    pose proof (digits2_bounds m) as [Hlo Hhi]. rewrite Hm in Hlo, Hhi.
    replace (53 - 1) with 52 in Hlo by lia.
    assert (H52 : 2 ^ (e - -52) = 2 ^ e * 2 ^ 52) by (rewrite <- Z.pow_add_r by lia; f_equal; lia).
    assert (He2 : 2 <= 2 ^ e) by (change 2 with (2 ^ 1) at 1; apply Z.pow_le_mono_r; lia).
    replace (-52 - -52) with 0 by lia. rewrite H52.
    assert (H103 : 2 ^ (103 + e) = 2 ^ 51 * (2 ^ e * 2 ^ 52))
      by (rewrite <- !Z.pow_add_r by lia; f_equal; lia).
    assert (H105 : 2 ^ (105 + e) = 2 ^ 53 * (2 ^ e * 2 ^ 52))
      by (rewrite <- !Z.pow_add_r by lia; f_equal; lia).
    remember (2 ^ e * 2 ^ 52) as E eqn:HE.
    assert (HE52 : 2 * 2 ^ 52 <= E) by (subst E; apply Z.mul_le_mono_nonneg_r; lia).
    clear HE H52.
    assert (Hq1 : 2 ^ (103 + e) <= Zpos m * E - 4503599627370496 * 2 ^ 0).
    { rewrite H103. change (2 ^ 0) with 1. change (2 ^ 52) with 4503599627370496 in *.
      change (2 ^ 51) with 2251799813685248. nia. }
    assert (Hq2 : Zpos m * E - 4503599627370496 * 2 ^ 0 < 2 ^ (105 + e)).
    { rewrite H105. change (2 ^ 0) with 1. change (2 ^ 53) with 9007199254740992 in *.
      change (2 ^ 52) with 4503599627370496 in *. nia. }
    clear H103 H105.
    assert (0 < 2 ^ (103 + e)) by (apply Z.pow_pos_nonneg; lia).
    destruct (Zpos m * E - 4503599627370496 * 2 ^ 0) as [|q|q] eqn:Hq; try lia.
    (* the difference has 104 + e or 105 + e digits *)
    assert (HD : 104 + e <= Zpos (digits2_pos q) <= 105 + e).
    { pose proof (digits2_bounds q) as [Hql Hqh].
      assert (103 + e < Zpos (digits2_pos q)) by (apply (Z.pow_lt_mono_r_iff 2); lia).
      assert (Zpos (digits2_pos q) - 1 < 105 + e) by (apply (Z.pow_lt_mono_r_iff 2); lia).
      lia. }
    unfold binary_normalize, binary_round, shl_align, fexp, emin, prec, emax.
    destruct (Z.max (Zpos (digits2_pos q) + -52 - 53) (3 - 1024 - 53) - -52) as [|c|c] eqn:Hc;
      try lia;
      change (binary_round_aux 53 1024) with (binary_round_aux prec emax);
      (destruct (binary_round_aux_normal false q (-52)) as [->|(m' & e' & -> & Hm' & He' & He'')];
       [lia | lia | now right; right |]);
      (destruct (Z.eq_dec e' 0) as [->|];
       [left; exists (Zpos m'); split;
        [pose proof (digits2_bounds m') as Hb; rewrite Hm' in Hb; simpl in Hb; lia
        |symmetry; now apply of_Z_normal]
       |right; left; exists m', e'; repeat split; try easy; lia]).
  - right. now right.
Qed.

(** *** Integers above [2^53] *)

(** One shift to the right: the bit shifted out becomes the round bit, the
    former round bit joins the sticky bit. *)
Lemma shr_1_spec (r : shr_record) :
  0 <= shr_m r ->
  shr_1 r = {| shr_m := shr_m r / 2; shr_r := Z.odd (shr_m r); shr_s := shr_r r || shr_s r |}.
Proof.
  rewrite <- Z.div2_div.
  destruct r as [[|[p|p|]|p] r s]; simpl; intros Hr; try reflexivity; lia.
Qed.

Lemma mod_pow2_succ (M k : Z) :
  0 <= k ->
  M mod 2 ^ (k + 1) = M mod 2 ^ k + 2 ^ k * Z.b2z (Z.testbit M k).
Proof.
  intros Hk. assert (0 < 2 ^ k) by (apply Z.pow_pos_nonneg; lia).
  rewrite Z.testbit_spec' by lia.
  rewrite Z.pow_add_r by lia. change (2 ^ 1) with 2.
  apply Z.rem_mul_r; lia.
Qed.

(** The shifted mantissa, the round bit and the sticky bit after [k]
    shifts to the right. *)
Lemma shr_spec (k : positive) (M : Z) :
  0 <= M ->
  SpecFloat.iter_pos shr_1 k {| shr_m := M; shr_r := false; shr_s := false |}
  = {| shr_m := M / 2 ^ Zpos k;
       shr_r := Z.testbit M (Zpos k - 1);
       shr_s := negb (M mod 2 ^ (Zpos k - 1) =? 0) |}.
Proof.
  intros HM. rewrite iter_pos_iter.
  induction k as [|k IH] using Pos.peano_ind.
  - cbn [Pos.iter]. rewrite shr_1_spec by (cbn [shr_m]; lia). cbn [shr_m shr_r shr_s].
    change (2 ^ 1) with 2. change (1 - 1) with 0.
    rewrite Z.bit0_odd. change (2 ^ 0) with 1. now rewrite Z.mod_1_r.
  - assert (0 < 2 ^ Zpos k) by (apply Z.pow_pos_nonneg; lia).
    assert (0 < 2 ^ (Zpos k - 1)) by (apply Z.pow_pos_nonneg; lia).
    rewrite Pos.iter_succ, IH, shr_1_spec by (cbn [shr_m]; apply Z.div_pos; lia).
    cbn [shr_m shr_r shr_s].
    rewrite Pos2Z.inj_succ.
    replace (Z.succ (Zpos k) - 1) with (Zpos k) by lia.
    f_equal.
    + rewrite Z.pow_succ_r, Z.div_div by lia. f_equal. lia.
    + rewrite Z.testbit_odd, Z.shiftr_div_pow2 by lia. reflexivity.
    + pose proof (mod_pow2_succ M (Zpos k - 1) ltac:(lia)) as Hs.
      replace (Zpos k - 1 + 1) with (Zpos k) in Hs by lia.
      pose proof (Z.mod_pos_bound M (2 ^ (Zpos k - 1)) ltac:(lia)) as Hb.
      destruct (Z.testbit M (Zpos k - 1)); simpl in *.
      * symmetry. apply negb_true_iff, Z.eqb_neq. lia.
      * f_equal. f_equal. lia.
Qed.

Lemma binary_round_aux_shift (s : bool) (M k : positive) (e0 : Z) :
  Zpos (digits2_pos M) = 53 + Zpos k -> -1074 <= e0 -> e0 + Zpos k + 1 <= 971 ->
  binary_round_aux prec emax s (Zpos M) e0 loc_Exact
  = if rounded_mantissa (Zpos M) (Zpos k) =? 2 ^ 53
    then S754_finite s 4503599627370496 (e0 + Zpos k + 1)
    else S754_finite s (Z.to_pos (rounded_mantissa (Zpos M) (Zpos k))) (e0 + Zpos k).
Proof.
  intros HD He0 He1.
  pose proof (digits2_bounds M) as [Hlo Hhi]. rewrite HD in Hlo, Hhi.
  assert (0 < 2 ^ Zpos k) by (apply Z.pow_pos_nonneg; lia).
  assert (Hm1 : 2 ^ 52 <= Zpos M / 2 ^ Zpos k < 2 ^ 53).
  { replace (53 + Zpos k - 1) with (52 + Zpos k) in Hlo by lia.
    rewrite Z.pow_add_r in Hlo, Hhi by lia.
    split; [apply Z.div_le_lower_bound | apply Z.div_lt_upper_bound]; lia. }
  unfold binary_round_aux.
  unfold shr_fexp at 1. unfold Zdigits2 at 1. unfold shr_record_of_loc at 1. unfold fexp at 1. unfold emin, prec, emax.
  rewrite HD.
  replace (Z.max (53 + Zpos k + e0 - 53) (3 - 1024 - 53) - e0) with (Zpos k) by lia.
  cbn [shr]. rewrite shr_spec by lia. cbn [shr_m].
  fold (rounded_mantissa (Zpos M) (Zpos k)).
  pose proof (round_nearest_even_bounds (Zpos M / 2 ^ Zpos k)
    (loc_of_shr_record {| shr_m := Zpos M / 2 ^ Zpos k;
                          shr_r := Z.testbit (Zpos M) (Zpos k - 1);
                          shr_s := negb (Zpos M mod 2 ^ (Zpos k - 1) =? 0) |})) as Hr.
  fold (rounded_mantissa (Zpos M) (Zpos k)) in Hr.
  set (m2 := rounded_mantissa (Zpos M) (Zpos k)) in *. clearbody m2.
  destruct m2 as [|p|p]; try lia.
  destruct (Z.eqb_spec (Zpos p) (2 ^ 53)) as [Hp|Hp].
  - assert (p = 9007199254740992%positive) as -> by (apply Pos2Z.inj; rewrite Hp; reflexivity).
    unfold shr_fexp, fexp, emin.
    change (Zdigits2 9007199254740992) with 54.
    replace (Z.max (54 + (e0 + Zpos k) - 53) (3 - 1024 - 53) - (e0 + Zpos k)) with 1 by lia.
    cbn [shr SpecFloat.iter_pos shr_record_of_loc shr_1 shr_m].
    now replace (e0 + Zpos k + 1 <=? 1024 - 53) with true by (symmetry; apply Z.leb_le; lia).
  - assert (Hdp : Zpos (digits2_pos p) = 53) by (apply digits2_unique; simpl; lia).
    unfold shr_fexp, fexp, emin. simpl Zdigits2. rewrite Hdp.
    replace (Z.max (53 + (e0 + Zpos k) - 53) (3 - 1024 - 53) - (e0 + Zpos k)) with 0 by lia.
    cbn [shr shr_record_of_loc shr_m].
    now replace (e0 + Zpos k <=? 1024 - 53) with true by (symmetry; apply Z.leb_le; lia).
Qed.

Lemma rounded_mantissa_bounds (M k : Z) :
  M / 2 ^ k <= rounded_mantissa M k <= M / 2 ^ k + 1.
Proof. apply round_nearest_even_bounds. Qed.

(** The difference [x - 1] for a Number [x] from [2^53] on, before rounding. *)
Lemma sub_one_large (m : positive) (e : Z) :
  Zpos (digits2_pos m) = 53 -> 1 <= e <= 971 ->
  exists q, Zpos q = Zpos m * 2 ^ (e + 52) - 2 ^ 52
    /\ 104 + e <= Zpos (digits2_pos q) <= 105 + e
    /\ (S754_finite false m e - of_Z 1)%num
       = binary_round_aux prec emax false (Zpos q) (-52) loc_Exact.
Proof.
  intros Hm He.
  pose proof (digits2_bounds m) as [Hlo Hhi]. rewrite Hm in Hlo, Hhi.
  change (2 ^ (53 - 1)) with 4503599627370496 in Hlo.
  change (2 ^ 53) with 9007199254740992 in Hhi.
  assert (HE : 2 * 2 ^ 52 <= 2 ^ (e + 52)).
  { change (2 * 2 ^ 52) with (2 ^ 53). apply Z.pow_le_mono_r; lia. }
  assert (H103 : 2 ^ (103 + e) = 2 ^ 51 * 2 ^ (e + 52))
    by (rewrite <- Z.pow_add_r by lia; f_equal; lia).
  assert (H105 : 2 ^ (105 + e) = 2 ^ 53 * 2 ^ (e + 52))
    by (rewrite <- Z.pow_add_r by lia; f_equal; lia).
  remember (2 ^ (e + 52)) as E eqn:HeqE.
  change (2 ^ 52) with 4503599627370496 in *.
  change (2 ^ 51) with 2251799813685248 in *.
  change (2 ^ 53) with 9007199254740992 in *.
  assert (Hq1 : 2 ^ (103 + e) <= Zpos m * E - 4503599627370496) by (clear HeqE; nia).
  assert (Hq2 : Zpos m * E - 4503599627370496 < 2 ^ (105 + e)) by (clear HeqE; nia).
  assert (0 < 2 ^ (103 + e)) by (apply Z.pow_pos_nonneg; lia).
  destruct (Zpos m * E - 4503599627370496) as [|q|q] eqn:Hq; try lia.
  exists q. split; [reflexivity|].
  assert (HD : 104 + e <= Zpos (digits2_pos q) <= 105 + e).
  { pose proof (digits2_bounds q) as [Hql Hqh].
    assert (103 + e < Zpos (digits2_pos q)) by (apply (Z.pow_lt_mono_r_iff 2); lia).
    assert (Zpos (digits2_pos q) - 1 < 105 + e) by (apply (Z.pow_lt_mono_r_iff 2); lia).
    lia. }
  split; [exact HD|].
  rewrite of_Z_1. unfold Number.sub, SFsub.
  rewrite Z.min_r by lia. cbn [cond_Zopp].
  rewrite !shl_align_value by lia.
  replace (e - -52) with (e + 52) by lia. replace (-52 - -52) with 0 by lia.
  change (2 ^ 0) with 1. rewrite Z.mul_1_r.
  rewrite <- HeqE, Hq.
  unfold binary_normalize, binary_round, shl_align, fexp, emin, prec, emax.
  now destruct (Z.max (Zpos (digits2_pos q) + -52 - 53) (3 - 1024 - 53) - -52) as [|c|c] eqn:Hc;
    try lia.
Qed.

Lemma beyond_safe_tests (x : number) :
  beyond_safe x ->
  (x <? of_Z 0)%num = false /\ (x === of_Z 0)%num = false /\ (x === of_Z 1)%num = false.
Proof.
  intros [->|(m & e & -> & Hm & He & _)]; [easy|].
  repeat split. rewrite of_Z_1. unfold strict_equals, SFeqb, SFcompare.
  now replace (e ?= -52) with Gt by (symmetry; apply Z.compare_gt_iff; lia).
Qed.

Lemma sub_one_first_stuck :
  (S754_finite false 4503599627370498 1 - of_Z 1)%num = S754_finite false 4503599627370498 1.
Proof. vm_compute. reflexivity. Qed.

(** Subtracting one keeps a Number in [beyond_safe]: the result is at most
    one unit in the last place below, and [2^53 + 4 - 1] rounds back to
    [2^53 + 4]. *)
Lemma beyond_safe_sub_one (x : number) :
  beyond_safe x -> beyond_safe (x - of_Z 1)%num.
Proof.
  intros [->|(m & e & -> & Hm & He & Hm1)]; [now left|].
  destruct (Z.le_gt_cases 3 e) as [He3|He3].
  - (* the exponent stays above 1 *)
    destruct (sub_one_large m e Hm He) as (q & Hq & HD & ->).
    destruct (binary_round_aux_normal false q (-52)) as [->|(m' & e' & -> & Hm' & He' & He'')];
      try lia; [now left|].
    right. exists m', e'. split; [reflexivity|]. split; [exact Hm'|]. split; [lia|intros; lia].
  - destruct (Pos.eq_dec m 4503599627370498%positive) as [->|Hm2].
    { assert (e = 1 \/ e = 2) as [-> | ->] by lia.
      - rewrite sub_one_first_stuck. right. eexists _, _.
        split; [reflexivity|]. split; [reflexivity|]. split; [lia|intros; simpl; lia].
      - right. eexists _, _. split; [vm_compute; reflexivity|].
        split; [reflexivity|]. split; [lia|intros; lia]. }
    destruct (sub_one_large m e Hm He) as (q & Hq & HD & ->).
    pose proof (digits2_bounds m) as [Hlo Hhi]. rewrite Hm in Hlo, Hhi.
    change (2 ^ (53 - 1)) with 4503599627370496 in Hlo.
    change (2 ^ 53) with 9007199254740992 in Hhi.
    change (2 ^ 52) with 4503599627370496 in *.
    pose proof (digits2_bounds q) as [Hql Hqh].
    (* the difference has 106 digits at least, and if 106, it is [2^105 + 2^54] at least *)
    assert (Hq105 : 2 ^ 105 + 2 ^ 54 <= Zpos q).
    { rewrite Hq. assert (e = 1 \/ e = 2) as [-> | ->] by lia.
      - specialize (Hm1 eq_refl). change (2 ^ (1 + 52)) with 9007199254740992.
        change (2 ^ 105 + 2 ^ 54) with 40564819207303358862293012054016.
        assert (Zpos m <> 4503599627370498) by (intros [= ->]; now elim Hm2). lia.
      - change (2 ^ (2 + 52)) with 18014398509481984.
        change (2 ^ 105 + 2 ^ 54) with 40564819207303358862293012054016. lia. }
    assert (HD106 : 106 <= Zpos (digits2_pos q)).
    { destruct (Z.le_gt_cases 106 (Zpos (digits2_pos q))) as [|Hlt]; [easy|].
      assert (2 ^ Zpos (digits2_pos q) <= 2 ^ 105) by (apply Z.pow_le_mono_r; lia).
      change (2 ^ 105) with 40564819207303340847894502572032 in *.
      change (2 ^ 54) with 18014398509481984 in *. lia. }
    assert (Hk : exists k, Zpos (digits2_pos q) = 53 + Zpos k)
      by (exists (Z.to_pos (Zpos (digits2_pos q) - 53)); lia).
    destruct Hk as [k Hk].
    rewrite (binary_round_aux_shift false q k (-52) Hk) by lia.
    pose proof (rounded_mantissa_bounds (Zpos q) (Zpos k)) as Hr.
    assert (0 < 2 ^ Zpos k) by (apply Z.pow_pos_nonneg; lia).
    assert (Hquot : 2 ^ 52 <= Zpos q / 2 ^ Zpos k < 2 ^ 53).
    { rewrite Hk in Hql, Hqh.
      replace (53 + Zpos k - 1) with (52 + Zpos k) in Hql by lia.
      rewrite Z.pow_add_r in Hql, Hqh by lia.
      split; [apply Z.div_le_lower_bound | apply Z.div_lt_upper_bound]; lia. }
    assert (Hquot53 : Zpos k = 53 -> 2 ^ 52 + 2 <= Zpos q / 2 ^ Zpos k).
    { intros ->. apply Z.div_le_lower_bound; [reflexivity|].
      change (2 ^ 53 * (2 ^ 52 + 2)) with (2 ^ 105 + 2 ^ 54). lia. }
    set (R := rounded_mantissa (Zpos q) (Zpos k)) in *. clearbody R.
    right. destruct (Z.eqb_spec R (2 ^ 53)) as [HR|HR].
    + eexists _, _. split; [reflexivity|]. split; [reflexivity|]. split; [lia|intros; lia].
    + exists (Z.to_pos R), (-52 + Zpos k).
      assert (HRpos : Zpos (Z.to_pos R) = R) by (apply Z2Pos.id; lia).
      split; [reflexivity|]. split; [|split; [lia|]].
      * apply digits2_unique. rewrite HRpos. simpl. lia.
      * intros Hk53. rewrite HRpos. assert (Zpos k = 53) as Hk' by lia.
        specialize (Hquot53 Hk'). lia.
Qed.

Lemma of_Z_first_stuck : of_Z (2 ^ 53 + 3) = S754_finite false 4503599627370498 1.
Proof. vm_compute. reflexivity. Qed.

(** The integers from [2^53 + 3] on are [beyond_safe] Numbers. *)
Lemma of_Z_beyond_safe (n : Z) : 2 ^ 53 + 3 <= n -> beyond_safe (of_Z n).
Proof.
  intros Hn. destruct (Z.eq_dec n (2 ^ 53 + 3)) as [->|Hn3].
  { rewrite of_Z_first_stuck. right. eexists _, _.
    split; [reflexivity|]. split; [reflexivity|]. split; [lia|intros; simpl; lia]. }
  change (2 ^ 53 + 3) with 9007199254740995 in *.
  destruct n as [|p|p]; try lia.
  pose proof (digits_large p ltac:(change (2 ^ 53) with 9007199254740992; lia)) as Hd.
  unfold of_Z, binary_normalize, binary_round, shl_align, fexp, emin, prec, emax.
  replace (Z.max (Zpos (digits2_pos p) + 0 - 53) (3 - 1024 - 53) - 0)
    with (Zpos (digits2_pos p) - 53) by lia.
  destruct (Zpos (digits2_pos p) - 53) as [|c|c] eqn:Hc; try lia.
  change (binary_round_aux 53 1024) with (binary_round_aux prec emax).
  destruct (Z.eq_dec (Zpos c) 1) as [Hc1|Hc1].
  - (* 54 digits *)
    rewrite (binary_round_aux_shift false p c 0) by lia.
    pose proof (rounded_mantissa_bounds (Zpos p) (Zpos c)) as Hr.
    rewrite Hc1 in *. change (2 ^ 1) with 2 in *.
    pose proof (digits2_bounds p) as [_ Hhi].
    replace (Zpos (digits2_pos p)) with 54 in Hhi by lia.
    change (2 ^ 54) with 18014398509481984 in Hhi.
    assert (Hquot : 2 ^ 52 + 2 <= Zpos p / 2 < 2 ^ 53).
    { change (2 ^ 52 + 2) with 4503599627370498. change (2 ^ 53) with 9007199254740992.
      split; [apply Z.div_le_lower_bound | apply Z.div_lt_upper_bound]; lia. }
    set (R := rounded_mantissa (Zpos p) 1) in *. clearbody R.
    right. destruct (Z.eqb_spec R (2 ^ 53)) as [HR|HR].
    + eexists _, _. split; [reflexivity|]. split; [reflexivity|]. split; [lia|intros; lia].
    + exists (Z.to_pos R), (0 + 1).
      assert (HRpos : Zpos (Z.to_pos R) = R) by (apply Z2Pos.id; lia).
      split; [reflexivity|]. split; [|split; [lia|]].
      * apply digits2_unique. rewrite HRpos. simpl. lia.
      * intros _. rewrite HRpos. lia.
  - destruct (binary_round_aux_normal false p 0) as [->|(m' & e' & -> & Hm' & He' & He'')];
      try lia; [now left|].
    right. exists m', e'. split; [reflexivity|]. split; [exact Hm'|]. split; [lia|intros; lia].
Qed.

End NumberFacts.

(** ** Recursion of [factorial] *)

Section FactorialFacts.
Import Number NumberFacts.

(** One unfolding of the recursion, past the three tests. *)
Lemma factorial_step (fuel : nat) (n : number) :
  (n <? of_Z 0)%num = false -> (n === of_Z 0)%num = false -> (n === of_Z 1)%num = false ->
  factorial (S fuel) n =
  match factorial fuel (n - of_Z 1)%num with
  | Some (Return r) => Some (Return (n * r)%num)
  | Some (Throw e) => Some (Throw e)
  | None => None
  end.
Proof. intros H1 H2 H3. cbn [factorial]. now rewrite H1, H2, H3. Qed.

(** On an integer [n < 2^53] a recursion of depth [n + 1] returns. *)
Lemma factorial_safe_returns (n : nat) :
  Z.of_nat n < 2 ^ 53 ->
  exists r, factorial (S n) (of_Z (Z.of_nat n)) = Some (Return r).
Proof.
  induction n as [|n IH]; intros Hn.
  - now exists (of_Z 1).
  - destruct n as [|n]; [now exists (of_Z 1)|].
    destruct IH as [r Hr]; [lia|].
    exists (of_Z (Z.of_nat (S (S n))) * r)%num.
    rewrite factorial_step by (first [apply lt_zero_safe|apply eq_zero_safe|apply eq_one_safe]; lia).
    rewrite sub_one_safe by lia.
    replace (Z.of_nat (S (S n)) - 1) with (Z.of_nat (S n)) by lia.
    now rewrite Hr.
Qed.

(** On a non-negative integer nothing is thrown, at any depth. *)
Lemma factorial_no_throw (fuel : nat) (x : number) (e : exception) :
  nonneg_integral x -> factorial fuel x <> Some (Throw e).
Proof.
  revert x. induction fuel as [|fuel IH]; intros x Hx; [discriminate|].
  cbn [factorial]. rewrite (integral_not_negative x Hx).
  destruct ((x === of_Z 0)%num || (x === of_Z 1)%num) eqn:Hb; [discriminate|].
  apply orb_false_elim in Hb as [H0 H1].
  specialize (IH _ (sub_one_integral x Hx H0 H1)).
  destruct (factorial fuel (x - of_Z 1)%num) as [[r|e']|]; try discriminate.
  intros [= ->]. now apply IH.
Qed.

Lemma factorial_S (fuel : nat) (n : number) :
  factorial (S fuel) n =
  if (n <? of_Z 0)%num then Some (Throw (Error negative_message))
  else if (n === of_Z 0)%num || (n === of_Z 1)%num then Some (Return (of_Z 1))
  else match factorial fuel (n - of_Z 1)%num with
       | Some (Return r) => Some (Return (n * r)%num)
       | Some (Throw e) => Some (Throw e)
       | None => None
       end.
Proof. reflexivity. Qed.

(** More fuel does not change a result. *)
Lemma factorial_fuel_S (fuel : nat) (x : number) (r : outcome number) :
  factorial fuel x = Some r -> factorial (S fuel) x = Some r.
Proof.
  revert x r. induction fuel as [|fuel IH]; intros x r; [discriminate|].
  rewrite (factorial_S (S fuel)), (factorial_S fuel).
  destruct (x <? of_Z 0)%num; [easy|].
  destruct ((x === of_Z 0)%num || (x === of_Z 1)%num); [easy|].
  destruct (factorial fuel (x - of_Z 1)%num) as [o|] eqn:Hrec; [|discriminate].
  now rewrite (IH _ _ Hrec).
Qed.

Lemma factorial_fuel_le (fuel fuel' : nat) (x : number) (r : outcome number) :
  (fuel <= fuel')%nat -> factorial fuel x = Some r -> factorial fuel' x = Some r.
Proof. induction 1 as [|fuel' _ IH]; [easy|]. intros H. now apply factorial_fuel_S, IH. Qed.

Lemma factorial_fuel_unique (fuel fuel' : nat) (x : number) (r r' : outcome number) :
  factorial fuel x = Some r -> factorial fuel' x = Some r' -> r = r'.
Proof.
  intros H H'.
  apply (factorial_fuel_le _ (Nat.max fuel fuel')) in H; [|lia].
  apply (factorial_fuel_le _ (Nat.max fuel fuel')) in H'; [|lia].
  congruence.
Qed.

(** Where [x - 1] is [x], the recursion does not end. *)
Lemma factorial_stuck (fuel : nat) (x : number) :
  (x <? of_Z 0)%num = false -> (x === of_Z 0)%num = false -> (x === of_Z 1)%num = false ->
  (x - of_Z 1)%num = x ->
  factorial fuel x = None.
Proof.
  intros H1 H2 H3 Hx. induction fuel as [|fuel IH]; [reflexivity|].
  now rewrite factorial_step, Hx, IH.
Qed.

Lemma stuck_integer_diverges fuel : factorial fuel (of_Z stuck_integer) = None.
Proof. now apply factorial_stuck. Qed.

Lemma stuck_power_diverges fuel : factorial fuel (of_Z stuck_power) = None.
Proof. now apply factorial_stuck. Qed.

(** On a [beyond_safe] Number the recursion does not end. *)
Lemma beyond_safe_diverges (fuel : nat) (x : number) :
  beyond_safe x -> factorial fuel x = None.
Proof.
  revert x. induction fuel as [|fuel IH]; intros x Hx; [reflexivity|].
  destruct (beyond_safe_tests x Hx) as (H1 & H2 & H3).
  rewrite factorial_step by easy.
  now rewrite IH by now apply beyond_safe_sub_one.
Qed.

Lemma factorial_safe_terminates (n : Z) :
  0 <= n < 2 ^ 53 -> exists fuel r, factorial fuel (of_Z n) = Some (Return r).
Proof.
  intros Hn. destruct (factorial_safe_returns (Z.to_nat n)) as [r Hr]; [lia|].
  rewrite Z2Nat.id in Hr by lia. now exists (S (Z.to_nat n)), r.
Qed.

Lemma factorial_after_step (fuel : nat) (x y r : number) :
  (x <? of_Z 0)%num = false -> (x === of_Z 0)%num = false -> (x === of_Z 1)%num = false ->
  (x - of_Z 1)%num = y -> factorial fuel y = Some (Return r) ->
  factorial (S fuel) x = Some (Return (x * r)%num).
Proof. intros H1 H2 H3 Hy Hr. now rewrite factorial_step, Hy, Hr. Qed.

(** [2^53] and [2^53 + 2] are one and two steps above the safe integers. *)
Lemma factorial_near_safe (n : Z) :
  2 ^ 53 <= n <= 2 ^ 53 + 2 -> exists fuel r, factorial fuel (of_Z n) = Some (Return r).
Proof.
  intros Hn. change (2 ^ 53) with 9007199254740992 in Hn.
  destruct (factorial_safe_terminates 9007199254740991) as (fuel & r & Hr);
    [change (2 ^ 53) with 9007199254740992; lia|].
  assert (H53 : factorial (S fuel) (of_Z 9007199254740992)
                = Some (Return (of_Z 9007199254740992 * r)%num)).
  { apply (factorial_after_step fuel _ (of_Z 9007199254740991));
      [vm_compute; reflexivity ..|exact Hr]. }
  assert (n = 9007199254740992 \/ n = 9007199254740993 \/ n = 9007199254740994)
    as [-> | [-> | ->]] by lia.
  - exists (S fuel), (of_Z 9007199254740992 * r)%num. exact H53.
  - exists (S fuel), (of_Z 9007199254740992 * r)%num.
    replace (of_Z 9007199254740993) with (of_Z 9007199254740992)
      by (vm_compute; reflexivity).
    exact H53.
  - exists (S (S fuel)), (of_Z 9007199254740994 * (of_Z 9007199254740992 * r))%num.
    apply (factorial_after_step (S fuel) _ (of_Z 9007199254740992));
      [vm_compute; reflexivity ..|exact H53].
Qed.

End FactorialFacts.

(** ** Property reads *)

Section GetFacts.

Variable wrapper : Value -> object.

(** A read gives what the property found along the chain holds. *)
Lemma Get_find_property (o : object) (key : string) :
  Get o key =
  match find_property o key with
  | Some (DataProperty v) => Return v
  | Some (AccessorProperty get) => get
  | None => Return VUndefined
  end.
Proof.
  revert o. fix IH 1. intros [properties [parent|]]; simpl.
  - destruct (properties !! key) as [[v|get]|]; try reflexivity. apply IH.
  - now destruct (properties !! key) as [[v|get]|].
Qed.

Lemma HasProperty_find_property (o : object) (key : string) :
  HasProperty o key = bool_decide (is_Some (find_property o key)).
Proof.
  revert o. fix IH 1. intros [properties [parent|]]; simpl.
  - destruct (properties !! key) as [p|] eqn:E; [|apply IH].
    symmetry. now apply bool_decide_eq_true.
  - destruct (properties !! key) as [p|] eqn:E; symmetry.
    + now apply bool_decide_eq_true.
    + apply bool_decide_eq_false. now intros [? ?].
Qed.

Lemma HasProperty_false (o : object) (key : string) :
  HasProperty o key = false -> find_property o key = None.
Proof.
  rewrite HasProperty_find_property. intros H%bool_decide_eq_false.
  destruct (find_property o key); [now elim H|reflexivity].
Qed.

Lemma ToObject_not_nullish (v : Value) :
  is_nullish v = false -> exists o, ToObject wrapper v = Return o.
Proof. destruct v; try discriminate; intros _; eexists; reflexivity. Qed.

(** The cases of [getNestedProperty]. *)

Lemma ToObject_is_nullish (v : Value) (o : object) :
  ToObject wrapper v = Return o -> is_nullish v = false.
Proof. now destruct v. Qed.

Lemma getNestedProperty_nullish (obj : Value) (prop : string) :
  is_nullish obj = true -> getNestedProperty wrapper obj prop = Return VUndefined.
Proof. unfold getNestedProperty. now intros ->. Qed.

Lemma getNestedProperty_no_nested (obj : Value) (prop : string) (o : object) :
  ToObject wrapper obj = Return o -> HasProperty o "nested" = false ->
  getNestedProperty wrapper obj prop = Return VUndefined.
Proof.
  intros Ho Hf%HasProperty_false. unfold getNestedProperty, GetV.
  now rewrite (ToObject_is_nullish _ _ Ho), Ho, Get_find_property, Hf.
Qed.

Lemma getNestedProperty_nested (obj nested : Value) (prop : string) (o : object) :
  ToObject wrapper obj = Return o ->
  find_property o "nested" = Some (DataProperty nested) ->
  getNestedProperty wrapper obj prop
  = if is_nullish nested then Return VUndefined else GetV wrapper nested prop.
Proof.
  intros Ho Hf. unfold getNestedProperty, GetV at 1.
  now rewrite (ToObject_is_nullish _ _ Ho), Ho, Get_find_property, Hf.
Qed.

End GetFacts.

(** ** The test suite *)

(** The expectations of [tests/index.test.js]; [toBe] compares with
    [Object.is], which on the values used here is equality of the
    embedded values.  The object literals of the tests inherit from the
    host's [Object.prototype], on which no property [nested] is defined. *)
Section TestSuite.
Import Number.

Variable wrapper : Value -> object.
Variable ObjectPrototype : object.
Hypothesis ObjectPrototype_nested : HasProperty ObjectPrototype "nested" = false.

Lemma test_math_functions :
  add (of_Z 2) (of_Z 3) = of_Z 5
  /\ add (of_Z (-1)) (of_Z 1) = of_Z 0
  /\ multiply (of_Z 3) (of_Z 4) = of_Z 12
  /\ multiply (of_Z 0) (of_Z 100) = of_Z 0
  /\ factorial 1 (of_Z 0) = Some (Return (of_Z 1))
  /\ factorial 1 (of_Z 1) = Some (Return (of_Z 1))
  /\ factorial 5 (of_Z 5) = Some (Return (of_Z 120))
  /\ factorial 1 (of_Z (-1)) = Some (Throw (Error negative_message)).
Proof. repeat split; vm_compute; reflexivity. Qed.

Lemma test_nullish_coalescing :
  getValueOrDefault VNull (VString "default") = VString "default"
  /\ getValueOrDefault VUndefined (VString "default") = VString "default"
  /\ getValueOrDefault (VNumber (of_Z 0)) (VString "default") = VNumber (of_Z 0)
  /\ getValueOrDefault (VString "") (VString "default") = VString "".
Proof. repeat split. Qed.

Lemma test_optional_chaining :
  getNestedProperty wrapper (test_obj (Some ObjectPrototype)) "foo" = Return (VString "bar")
  /\ getNestedProperty wrapper VNull "foo" = Return VUndefined
  /\ getNestedProperty wrapper (VObject (literal (Some ObjectPrototype) [])) "foo"
     = Return VUndefined.
Proof.
  split; [|split].
  - vm_compute. reflexivity.
  - reflexivity.
  - apply (getNestedProperty_no_nested wrapper _ _ (literal (Some ObjectPrototype) []));
      [reflexivity|]. simpl. apply ObjectPrototype_nested.
Qed.

End TestSuite.

(** * Further properties *)

(** ** Arithmetic: safe integers, the unit, and where [NaN] comes from *)

Section ArithmeticFacts.
Import Number NumberFacts.

(** A canonical mantissa followed by [k] zeros rounds to itself. *)
Lemma binary_round_aux_exact (s : bool) (q t : positive) (k e : Z) :
  0 <= k -> Zpos q = Zpos t * 2 ^ k ->
  canonical_mantissa prec emax t (e + k) = true ->
  binary_round_aux prec emax s (Zpos q) e loc_Exact
  = if e + k <=? emax - prec then S754_finite s t (e + k) else S754_infinity s.
Proof.
  intros Hk Hq Hc. unfold canonical_mantissa in Hc. apply Z.eqb_eq in Hc.
  assert (Hdq : Zpos (digits2_pos q) = Zpos (digits2_pos t) + k) by now apply digits2_shift.
  unfold binary_round_aux, shr_fexp. unfold Zdigits2 at 1.
  rewrite Hdq.
  replace (Zpos (digits2_pos t) + k + e) with (Zpos (digits2_pos t) + (e + k)) by lia.
  rewrite Hc. replace (e + k - e) with k by lia.
  destruct k as [|k|k]; try lia.
  - cbn [shr shr_record_of_loc shr_m shr_r shr_s loc_of_shr_record round_nearest_even].
    assert (q = t) as -> by (apply Pos2Z.inj; rewrite Hq; simpl; lia).
    unfold Zdigits2. rewrite Z.add_0_r in *. rewrite Hc, Z.sub_diag.
    reflexivity.
  - cbn [shr shr_record_of_loc]. rewrite Hq, shr_exact by lia.
    cbn [shr_m shr_r shr_s loc_of_shr_record round_nearest_even].
    unfold Zdigits2. rewrite Hc, Z.sub_diag. reflexivity.
Qed.

(** Rounding is exact on a value that has a canonical representation. *)
Lemma binary_round_canonical (s : bool) (q t : positive) (e e' : Z) :
  canonical_mantissa prec emax t e' = true ->
  (e' <= e /\ Zpos t = Zpos q * 2 ^ (e - e')) \/ (e <= e' /\ Zpos q = Zpos t * 2 ^ (e' - e)) ->
  binary_round prec emax s q e
  = if e' <=? emax - prec then S754_finite s t e' else S754_infinity s.
Proof.
  intros Hc Hv.
  assert (Hd : Zpos (digits2_pos q) + e = Zpos (digits2_pos t) + e').
  { destruct Hv as [[He Ht]|[He Hq]].
    - rewrite (digits2_shift q t (e - e')) by (try easy; lia). lia.
    - rewrite (digits2_shift t q (e' - e)) by (try easy; lia). lia. }
  pose proof Hc as Hc'. unfold canonical_mantissa in Hc'. apply Z.eqb_eq in Hc'.
  unfold binary_round, shl_align. rewrite Hd, Hc'.
  destruct (e' - e) as [|c|c] eqn:Hce.
  - assert (e' = e) as -> by lia.
    rewrite (binary_round_aux_exact s q t 0 e); rewrite ?Z.add_0_r; try easy.
    destruct Hv as [[_ Ht]|[_ Hq]].
    + rewrite Ht, ?Z.sub_diag. simpl. lia.
    + rewrite Hq, ?Z.sub_diag. simpl. lia.
  - destruct Hv as [[He Ht]|[He Hq]]; [lia|].
    rewrite (binary_round_aux_exact s q t (Zpos c) e);
      replace (e + Zpos c) with e' by lia;
      first [easy | rewrite Hq; do 2 f_equal; lia].
  - destruct Hv as [[He Ht]|[He Hq]]; [|lia].
    assert (Pos.iter xO q c = t) as ->.
    { apply Pos2Z.inj. rewrite iter_xO_value, Ht. do 2 f_equal. lia. }
    rewrite (binary_round_aux_exact s t t 0 e'); rewrite ?Z.add_0_r;
      first [easy | simpl; lia].
Qed.

(** The Number of a non-zero integer of at most 53 digits. *)
Lemma canonical_integer (n : Z) :
  1 <= n < 2 ^ 53 ->
  canonical_mantissa prec emax (integer_mantissa n) (integer_exponent n) = true.
Proof.
  intros Hn. unfold canonical_mantissa. apply Z.eqb_eq.
  pose proof (mantissa_value n Hn) as Hm. pose proof (exponent_range n Hn) as He.
  destruct n as [|p|p]; try lia.
  rewrite (digits2_shift p (integer_mantissa (Zpos p)) (- integer_exponent (Zpos p)))
    by (try easy; lia).
  unfold integer_exponent in *. simpl Zdigits2 in *. unfold fexp, emin, prec, emax. lia.
Qed.

Lemma of_Z_neg_safe (n : Z) :
  1 <= n < 2 ^ 53 ->
  of_Z (- n) = S754_finite true (integer_mantissa n) (integer_exponent n).
Proof.
  intros Hn. pose proof (mantissa_value n Hn) as Hm. pose proof (exponent_range n Hn) as He.
  destruct n as [|p|p]; try lia. change (- Zpos p) with (Zneg p).
  unfold of_Z, binary_normalize.
  rewrite (binary_round_canonical true p _ 0 (integer_exponent (Zpos p))
             (canonical_integer _ Hn)).
  - now replace (integer_exponent (Zpos p) <=? emax - prec) with true
      by (symmetry; apply Z.leb_le; unfold emax, prec; lia).
  - left. split; [lia|]. rewrite Hm. do 2 f_equal; lia.
Qed.

Lemma of_Z_safe_signed (n : Z) :
  n <> 0 -> Z.abs n < 2 ^ 53 ->
  of_Z n = S754_finite (safe_sign n) (integer_mantissa (Z.abs n)) (integer_exponent (Z.abs n)).
Proof.
  intros Hn0 Hn. unfold safe_sign. destruct (Z.ltb_spec n 0).
  - replace n with (- Z.abs n) at 1 by lia. apply of_Z_neg_safe. lia.
  - rewrite Z.abs_eq by lia. apply of_Z_safe. lia.
Qed.

Lemma binary_normalize_safe (c ez : Z) :
  Z.abs c < 2 ^ 53 -> -52 <= ez <= 0 ->
  binary_normalize prec emax (c * 2 ^ (- ez)) ez false = of_Z c.
Proof.
  intros Hc Hez.
  assert (HP : 0 < 2 ^ (- ez)) by (apply Z.pow_pos_nonneg; lia).
  destruct (Z.eq_dec c 0) as [->|Hc0]; [reflexivity|].
  rewrite (of_Z_safe_signed c Hc0 Hc).
  assert (Habs : 1 <= Z.abs c < 2 ^ 53) by lia.
  pose proof (mantissa_value _ Habs) as Hm. pose proof (exponent_range _ Habs) as He.
  pose proof (canonical_integer _ Habs) as Hcan.
  assert (Hle : (integer_exponent (Z.abs c) <=? emax - prec) = true)
    by (apply Z.leb_le; unfold emax, prec; lia).
  assert (Hval : forall q : positive, Zpos q = Z.abs c * 2 ^ (- ez) ->
            (integer_exponent (Z.abs c) <= ez
             /\ Zpos (integer_mantissa (Z.abs c)) = Zpos q * 2 ^ (ez - integer_exponent (Z.abs c)))
            \/ (ez <= integer_exponent (Z.abs c)
                /\ Zpos q = Zpos (integer_mantissa (Z.abs c))
                            * 2 ^ (integer_exponent (Z.abs c) - ez))).
  { intros q Hq. rewrite Hm, Hq.
    destruct (Z.le_ge_cases (integer_exponent (Z.abs c)) ez) as [Hle'|Hge]; [left|right];
      (split; [lia|]); rewrite <- Z.mul_assoc, <- Z.pow_add_r by lia; do 2 f_equal; lia. }
  unfold safe_sign. unfold binary_normalize.
  destruct (c * 2 ^ (- ez)) as [|q|q] eqn:Hq.
  - exfalso. apply Z.mul_eq_0 in Hq. lia.
  - assert (0 < c) by (apply (Z.mul_pos_cancel_r _ (2 ^ (- ez))); lia).
    replace (c <? 0) with false by (symmetry; apply Z.ltb_ge; lia).
    rewrite (binary_round_canonical false q _ ez _ Hcan), Hle; [reflexivity|].
    apply Hval. rewrite Z.abs_eq by lia. lia.
  - assert (c < 0).
    { destruct (Z.lt_ge_cases c 0) as [|Hge]; [easy|].
      assert (0 <= c * 2 ^ (- ez)) by (apply Z.mul_nonneg_nonneg; lia). lia. }
    replace (c <? 0) with true by (symmetry; apply Z.ltb_lt; lia).
    rewrite (binary_round_canonical true q _ ez _ Hcan), Hle; [reflexivity|].
    apply Hval. rewrite Z.abs_neq by lia. lia.
Qed.

(** The mantissa of a safe integer, aligned to a smaller exponent and signed. *)
Lemma aligned_safe (n ez : Z) :
  n <> 0 -> Z.abs n < 2 ^ 53 -> ez <= integer_exponent (Z.abs n) ->
  cond_Zopp (safe_sign n)
    (Zpos (fst (shl_align (integer_mantissa (Z.abs n)) (integer_exponent (Z.abs n)) ez)))
  = n * 2 ^ (- ez).
Proof.
  intros Hn0 Hn Hez.
  assert (Habs : 1 <= Z.abs n < 2 ^ 53) by lia.
  pose proof (mantissa_value _ Habs) as Hm. pose proof (exponent_range _ Habs) as He.
  rewrite shl_align_value, Hm, <- Z.mul_assoc, <- Z.pow_add_r by lia.
  replace (- integer_exponent (Z.abs n) + (integer_exponent (Z.abs n) - ez)) with (- ez) by lia.
  unfold safe_sign, cond_Zopp. destruct (Z.ltb_spec n 0); lia.
Qed.

Lemma add_exact_safe (a b : Z) :
  Z.abs a < 2 ^ 53 -> Z.abs b < 2 ^ 53 -> Z.abs (a + b) < 2 ^ 53 ->
  (of_Z a + of_Z b)%num = of_Z (a + b).
Proof.
  intros Ha Hb Hab.
  destruct (Z.eq_dec a 0) as [->|Ha0].
  { destruct (Z.eq_dec b 0) as [->|Hb0]; [reflexivity|].
    now rewrite Z.add_0_l, (of_Z_safe_signed b Hb0 Hb). }
  destruct (Z.eq_dec b 0) as [->|Hb0].
  { now rewrite Z.add_0_r, (of_Z_safe_signed a Ha0 Ha). }
  rewrite (of_Z_safe_signed a Ha0 Ha), (of_Z_safe_signed b Hb0 Hb).
  pose proof (exponent_range (Z.abs a) ltac:(lia)) as Hea.
  pose proof (exponent_range (Z.abs b) ltac:(lia)) as Heb.
  unfold Number.add, SFadd.
  set (ez := Z.min (integer_exponent (Z.abs a)) (integer_exponent (Z.abs b))).
  assert (Hez : ez <= integer_exponent (Z.abs a) /\ ez <= integer_exponent (Z.abs b)
                /\ -52 <= ez <= 0) by (unfold ez; lia).
  rewrite !aligned_safe by lia.
  rewrite <- Z.mul_add_distr_r.
  apply binary_normalize_safe; lia.
Qed.

Lemma digits2_mul (p q : positive) :
  Zpos (digits2_pos p) + Zpos (digits2_pos q) - 1 <= Zpos (digits2_pos (p * q)).
Proof.
  pose proof (digits2_bounds p) as [Hp _]. pose proof (digits2_bounds q) as [Hq _].
  pose proof (digits2_bounds (p * q)) as [_ Hpq].
  pose proof (Pos2Z.is_pos (digits2_pos p)). pose proof (Pos2Z.is_pos (digits2_pos q)).
  assert (Hlow : 2 ^ (Zpos (digits2_pos p) - 1 + (Zpos (digits2_pos q) - 1)) <= Zpos (p * q)).
  { rewrite Z.pow_add_r, Pos2Z.inj_mul by lia.
    apply Z.mul_le_mono_nonneg; try lia; apply Z.pow_nonneg; lia. }
  assert (Zpos (digits2_pos p) - 1 + (Zpos (digits2_pos q) - 1) < Zpos (digits2_pos (p * q)))
    by (apply (Z.pow_lt_mono_r_iff 2); lia).
  lia.
Qed.

Lemma digits_integer_mantissa (n : Z) :
  1 <= n < 2 ^ 53 -> Zpos (digits2_pos (integer_mantissa n)) = 53.
Proof.
  intros Hn. pose proof (canonical_integer n Hn) as Hc. pose proof (exponent_range n Hn).
  unfold canonical_mantissa in Hc. apply Z.eqb_eq in Hc.
  unfold fexp, emin, prec, emax in Hc. lia.
Qed.

Lemma mul_exact_safe (a b : Z) :
  a <> 0 -> b <> 0 -> Z.abs (a * b) < 2 ^ 53 ->
  (of_Z a * of_Z b)%num = of_Z (a * b).
Proof.
  intros Ha0 Hb0 Hab.
  assert (Hab0 : a * b <> 0) by (intros [?|?]%Z.mul_eq_0; lia).
  assert (Ha : Z.abs a < 2 ^ 53) by (rewrite Z.abs_mul in Hab; nia).
  assert (Hb : Z.abs b < 2 ^ 53) by (rewrite Z.abs_mul in Hab; nia).
  rewrite (of_Z_safe_signed a Ha0 Ha), (of_Z_safe_signed b Hb0 Hb),
    (of_Z_safe_signed (a * b) Hab0 Hab).
  assert (HA : 1 <= Z.abs a < 2 ^ 53) by lia.
  assert (HB : 1 <= Z.abs b < 2 ^ 53) by lia.
  assert (HAB : 1 <= Z.abs (a * b) < 2 ^ 53) by lia.
  pose proof (mantissa_value _ HA) as Hma. pose proof (exponent_range _ HA) as Hea.
  pose proof (mantissa_value _ HB) as Hmb. pose proof (exponent_range _ HB) as Heb.
  pose proof (mantissa_value _ HAB) as Hmab. pose proof (exponent_range _ HAB) as Heab.
  pose proof (digits_integer_mantissa _ HA) as Hda.
  pose proof (digits_integer_mantissa _ HB) as Hdb.
  pose proof (digits_integer_mantissa _ HAB) as Hdab.
  pose proof (digits2_mul (integer_mantissa (Z.abs a)) (integer_mantissa (Z.abs b))) as Hdm.
  set (ea := integer_exponent (Z.abs a)) in *. set (eb := integer_exponent (Z.abs b)) in *.
  set (eab := integer_exponent (Z.abs (a * b))) in *.
  set (ma := integer_mantissa (Z.abs a)) in *. set (mb := integer_mantissa (Z.abs b)) in *.
  set (mab := integer_mantissa (Z.abs (a * b))) in *.
  (* the product of the mantissas is the mantissa of the product, followed by zeros *)
  assert (Hprod : Zpos (ma * mb) = Z.abs (a * b) * 2 ^ (- ea - eb)).
  { rewrite Pos2Z.inj_mul, Hma, Hmb, Z.abs_mul.
    replace (- ea - eb) with (- ea + - eb) by lia. rewrite Z.pow_add_r by lia. ring. }
  assert (Hk : 0 <= eab - (ea + eb)).
  { (* otherwise the product would have more digits than its mantissa *)
    destruct (Z.le_gt_cases 0 (eab - (ea + eb))) as [|Hneg]; [easy|].
    assert (Hd : Zpos (digits2_pos mab)
                 = Zpos (digits2_pos (ma * mb)) + (ea + eb - eab)).
    { apply digits2_shift; [lia|]. rewrite Hprod, Hmab.
      rewrite <- Z.mul_assoc, <- Z.pow_add_r by lia. do 2 f_equal. lia. }
    lia. }
  unfold Number.mul, SFmul.
  rewrite (binary_round_aux_exact _ (ma * mb) mab (eab - (ea + eb)) (ea + eb) Hk).
  - replace (ea + eb + (eab - (ea + eb))) with eab by lia.
    replace (eab <=? emax - prec) with true
      by (symmetry; apply Z.leb_le; unfold emax, prec; lia).
    f_equal. unfold safe_sign.
    destruct (Z.ltb_spec a 0), (Z.ltb_spec b 0), (Z.ltb_spec (a * b) 0); try reflexivity; nia.
  - rewrite Hprod, Hmab, <- Z.mul_assoc, <- Z.pow_add_r by lia. do 2 f_equal. lia.
  - replace (ea + eb + (eab - (ea + eb))) with eab by lia. now apply canonical_integer.
Qed.

Lemma mul_zero_safe (a b : Z) :
  a * b = 0 -> Z.abs a < 2 ^ 53 -> Z.abs b < 2 ^ 53 ->
  (of_Z a * of_Z b)%num = S754_zero (xorb (a <? 0) (b <? 0)).
Proof.
  intros H0 Ha Hb.
  destruct (Z.eq_dec a 0) as [->|Ha0], (Z.eq_dec b 0) as [->|Hb0].
  - reflexivity.
  - rewrite (of_Z_safe_signed b) by easy. reflexivity.
  - rewrite (of_Z_safe_signed a) by easy. unfold safe_sign.
    change (of_Z 0) with (S754_zero false). change (0 <? 0) with false.
    reflexivity.
  - apply Z.mul_eq_0 in H0. lia.
Qed.

(** *** The unit of the product *)

Lemma valid_finite (s : bool) (m : positive) (e : Z) :
  is_number (S754_finite s m e) = true ->
  canonical_mantissa prec emax m e = true /\ e <= emax - prec.
Proof.
  unfold is_number, valid_binary, bounded. intros [H1 H2]%andb_true_iff.
  split; [easy|]. now apply Z.leb_le.
Qed.

Lemma mul_one_r (x : number) : is_number x = true -> (x * of_Z 1)%num = x.
Proof.
  intros Hx. rewrite of_Z_1. destruct x as [s|s| |s m e]; cbn; rewrite ?xorb_false_r; try reflexivity.
  apply valid_finite in Hx as [Hc He].
  change (binary_round_aux 53 1024) with (binary_round_aux prec emax).
  rewrite (binary_round_aux_exact _ (m * 4503599627370496) m 52 (e + -52)); try easy.
  - replace (e + -52 + 52) with e by lia.
    now replace (e <=? emax - prec) with true by (symmetry; now apply Z.leb_le).
  - now replace (e + -52 + 52) with e by lia.
Qed.

(** *** Rounding never makes [NaN] *)

Lemma shr_m_nonneg (r : shr_record) (e k : Z) :
  0 <= shr_m r -> 0 <= shr_m (fst (shr r e k)).
Proof.
  intros Hr. destruct k as [|k|k]; cbn [shr fst]; try easy.
  rewrite shr_m_iter by easy. apply Z.div_pos; [easy|]. apply Z.pow_pos_nonneg; lia.
Qed.

Lemma binary_round_aux_cases (s : bool) (M : Z) (e : Z) :
  0 <= M ->
  binary_round_aux prec emax s M e loc_Exact = S754_zero s
  \/ binary_round_aux prec emax s M e loc_Exact = S754_infinity s
  \/ exists m' e', binary_round_aux prec emax s M e loc_Exact = S754_finite s m' e'.
Proof.
  intros HM. unfold binary_round_aux.
  destruct (shr_fexp prec emax M e loc_Exact) as [r1 e1] eqn:H1.
  assert (Hr1 : 0 <= shr_m r1).
  { unfold shr_fexp in H1. pose proof (shr_m_nonneg (shr_record_of_loc M loc_Exact) e
      (fexp prec emax (Zdigits2 M + e) - e) HM) as H. now rewrite H1 in H. }
  pose proof (round_nearest_even_bounds (shr_m r1) (loc_of_shr_record r1)) as [Hlo _].
  set (M1 := round_nearest_even (shr_m r1) (loc_of_shr_record r1)) in *.
  destruct (shr_fexp prec emax M1 e1 loc_Exact) as [r2 e2] eqn:H2.
  assert (Hr2 : 0 <= shr_m r2).
  { unfold shr_fexp in H2. pose proof (shr_m_nonneg (shr_record_of_loc M1 loc_Exact) e1
      (fexp prec emax (Zdigits2 M1 + e1) - e1) ltac:(cbn; lia)) as H. now rewrite H2 in H. }
  destruct (shr_m r2) as [|p|p]; [now left| |lia].
  destruct (e2 <=? emax - prec); [right; right; now exists p, e2|right; now left].
Qed.

Lemma binary_round_cases (s : bool) (q : positive) (e : Z) :
  binary_round prec emax s q e = S754_zero s
  \/ binary_round prec emax s q e = S754_infinity s
  \/ exists m' e', binary_round prec emax s q e = S754_finite s m' e'.
Proof.
  unfold binary_round. destruct (shl_align q e _) as [mz ez].
  now apply binary_round_aux_cases.
Qed.

Lemma binary_normalize_not_nan (c e : Z) :
  is_nan (binary_normalize prec emax c e false) = false.
Proof.
  destruct c as [|p|p]; cbn [binary_normalize]; [reflexivity| |].
  - destruct (binary_round_cases false p e) as [->|[->|(m' & e' & ->)]]; reflexivity.
  - destruct (binary_round_cases true p e) as [->|[->|(m' & e' & ->)]]; reflexivity.
Qed.

(** *** [add] and [multiply] *)

(** X1: on integers that are safe, with a safe sum, [add] is the exact
    integer sum. *)
Theorem add_safe_integers (a b : Z) :
  Z.abs a <= MAX_SAFE_INTEGER -> Z.abs b <= MAX_SAFE_INTEGER ->
  Z.abs (a + b) <= MAX_SAFE_INTEGER ->
  add (of_Z a) (of_Z b) = of_Z (a + b).
Proof. unfold MAX_SAFE_INTEGER, add. intros Ha Hb Hab. apply add_exact_safe; lia. Qed.

Lemma add_safe_integers_witness :
  add (of_Z (-7)) (of_Z 9007199254740991) = of_Z 9007199254740984.
Proof.
  apply (add_safe_integers (-7) 9007199254740991); unfold MAX_SAFE_INTEGER; simpl; lia.
Defined.

(** X2: on integers that are safe, with a safe product, [multiply] is the
    exact integer product; a product that is zero has the sign of the
    product of the operands, so that [multiply(0, -5)] is [-0], which is
    [=== 0]. *)
Theorem multiply_safe_integers (a b : Z) :
  Z.abs a <= MAX_SAFE_INTEGER -> Z.abs b <= MAX_SAFE_INTEGER ->
  Z.abs (a * b) <= MAX_SAFE_INTEGER ->
  (multiply (of_Z a) (of_Z b) === of_Z (a * b))%num = true
  /\ (a * b <> 0 -> multiply (of_Z a) (of_Z b) = of_Z (a * b))
  /\ (a * b = 0 -> multiply (of_Z a) (of_Z b) = S754_zero (xorb (a <? 0) (b <? 0))).
Proof.
  unfold MAX_SAFE_INTEGER, multiply. intros Ha Hb Hab.
  assert (Hexact : a * b <> 0 -> (of_Z a * of_Z b)%num = of_Z (a * b)).
  { intros H0. apply mul_exact_safe; try lia; intros ->; lia. }
  assert (Hzero : a * b = 0 -> (of_Z a * of_Z b)%num = S754_zero (xorb (a <? 0) (b <? 0))).
  { intros H0. apply mul_zero_safe; lia. }
  split; [|now split].
  destruct (Z.eq_dec (a * b) 0) as [H0|H0].
  - rewrite (Hzero H0), H0. now destruct (xorb _ _).
  - rewrite (Hexact H0). apply strict_equals_refl.
    rewrite (of_Z_safe_signed (a * b)) by lia. reflexivity.
Qed.

Lemma multiply_safe_integers_witness :
  multiply (of_Z (-3)) (of_Z 5) = of_Z (-15)
  /\ multiply (of_Z 0) (of_Z (-5)) = neg_zero.
Proof.
  split.
  - apply (multiply_safe_integers (-3) 5); unfold MAX_SAFE_INTEGER; simpl; lia.
  - apply (multiply_safe_integers 0 (-5)); unfold MAX_SAFE_INTEGER; simpl; lia.
Defined.

(** X3: [1] is the unit of [multiply] on every Number, the zeros, the
    infinities and [NaN] included. *)
Theorem multiply_one (x : number) :
  is_number x = true -> multiply x (of_Z 1) = x /\ multiply (of_Z 1) x = x.
Proof.
  intros Hx. unfold multiply. split; [|rewrite mul_comm]; now apply mul_one_r.
Qed.

Lemma multiply_one_witness :
  multiply neg_half (of_Z 1) = neg_half /\ multiply (of_Z 1) neg_half = neg_half.
Proof. apply (multiply_one neg_half). reflexivity. Defined.

(** X4: [add] gives [NaN] only from [NaN], or from the two infinities of
    opposite signs. *)
Theorem add_nan_iff (a b : number) :
  is_nan (add a b) = true <->
  is_nan a = true \/ is_nan b = true
  \/ exists s, a = S754_infinity s /\ b = S754_infinity (negb s).
Proof.
  unfold add.
  destruct a as [sa|sa| |sa ma ea], b as [sb|sb| |sb mb eb];
    try (cbn; split; [discriminate|intros [?|[?|(s & ? & ?)]]; discriminate]);
    try (cbn; split; [now auto|reflexivity]).
  - (* zeros *) destruct sa, sb; cbn; (split; [discriminate|intros [?|[?|(s & ? & ?)]]; discriminate]).
  - (* infinities *) destruct sa, sb; cbn; split; try discriminate; try reflexivity.
    + intros [?|[?|(s & [= <-] & [=])]]; discriminate.
    + intros _. right; right. now exists true.
    + intros _. right; right. now exists false.
    + intros [?|[?|(s & [= <-] & [=])]]; discriminate.
  - (* finite numbers *)
    unfold Number.add, SFadd. rewrite binary_normalize_not_nan.
    split; [discriminate|intros [?|[?|(s & ? & ?)]]; discriminate].
Qed.

(** X5: [multiply] gives [NaN] only from [NaN], or from a zero times an
    infinity. *)
Theorem multiply_nan_iff (a b : number) :
  is_nan (multiply a b) = true <->
  is_nan a = true \/ is_nan b = true
  \/ (exists s s', a = S754_zero s /\ b = S754_infinity s')
  \/ (exists s s', a = S754_infinity s /\ b = S754_zero s').
Proof.
  unfold multiply.
  destruct a as [sa|sa| |sa ma ea], b as [sb|sb| |sb mb eb];
    try (cbn; split; [discriminate|intros [?|[?|[(s & s' & ? & ?)|(s & s' & ? & ?)]]]; discriminate]);
    try (cbn; split; [now auto|reflexivity]).
  - cbn. split; [|reflexivity]. intros _. right; right; left. now exists sa, sb.
  - cbn. split; [|reflexivity]. intros _. right; right; right. now exists sa, sb.
  - unfold Number.mul, SFmul.
    destruct (binary_round_aux_cases (xorb sa sb) (Zpos (ma * mb)) (ea + eb) ltac:(lia))
      as [->|[->|(m' & e' & ->)]];
      (split; [discriminate|intros [?|[?|[(s & s' & ? & ?)|(s & s' & ? & ?)]]]; discriminate]).
Qed.

End ArithmeticFacts.

(** ** What [factorial] does on every Number *)

Section FactorialOutcomes.
Import Number NumberFacts.

Lemma canonical_digits (m : positive) (e : Z) :
  canonical_mantissa prec emax m e = true ->
  Zpos (digits2_pos m) <= 53 /\ -1074 <= e /\ (-1074 < e -> Zpos (digits2_pos m) = 53).
Proof.
  unfold canonical_mantissa, fexp, emin, prec, emax. intros H%Z.eqb_eq. lia.
Qed.

Lemma digits_canonical (m : positive) (e : Z) :
  Zpos (digits2_pos m) = 53 -> -1074 <= e ->
  canonical_mantissa prec emax m e = true.
Proof.
  unfold canonical_mantissa, fexp, emin, prec, emax. intros H ?. apply Z.eqb_eq. lia.
Qed.

Lemma strict_equals_finite (s s' : bool) (m m' : positive) (e e' : Z) :
  (S754_finite s m e === S754_finite s' m' e')%num = true -> s = s' /\ m = m' /\ e = e'.
Proof.
  unfold strict_equals, SFeqb, SFcompare.
  change (Pos.compare_cont Eq m m') with (m ?= m')%positive.
  destruct s, s'; try discriminate;
    destruct (Z.compare_spec e e') as [->|?|?]; try discriminate;
    destruct (Pos.compare_spec m m') as [->|?|?]; try discriminate; easy.
Qed.

Lemma fractional_tests (x : number) :
  fractional x ->
  (x <? of_Z 0)%num = false /\ (x === of_Z 0)%num = false /\ (x === of_Z 1)%num = false.
Proof.
  intros (m & e & -> & Hc & He & Hm). split; [reflexivity|]. split; [reflexivity|].
  rewrite of_Z_1.
  destruct (S754_finite false m e === S754_finite false 4503599627370496 (-52))%num eqn:Heq;
    [|reflexivity].
  apply strict_equals_finite in Heq as (_ & -> & ->).
  exfalso. apply Hm. vm_compute. reflexivity.
Qed.

(** Below one, subtracting one gives a negative Number. *)
Lemma fractional_sub_one_negative (x : number) :
  fractional x -> integer_part x = 0 -> (x - of_Z 1 <? of_Z 0)%num = true.
Proof.
  intros (m & e & -> & Hc & He & Hm) Hi. cbn [integer_part] in Hi.
  apply canonical_digits in Hc as (Hd & Hemin & _).
  assert (Hpow : 0 < 2 ^ (- e)) by (apply Z.pow_pos_nonneg; lia).
  assert (Hlt : Zpos m < 2 ^ (- e)).
  { apply Z.div_small_iff in Hi as [?|?]; lia. }
  rewrite of_Z_1. unfold Number.sub, SFsub. cbn [cond_Zopp].
  set (ez := Z.min e (-52)).
  rewrite !shl_align_value by (unfold ez; lia).
  assert (Hneg : Zpos m * 2 ^ (e - ez) - 4503599627370496 * 2 ^ (-52 - ez) < 0).
  { change 4503599627370496 with (2 ^ 52).
    rewrite <- Z.pow_add_r by (unfold ez; lia).
    replace (52 + (-52 - ez)) with (- e + (e - ez)) by lia.
    rewrite Z.pow_add_r by (unfold ez; lia).
    assert (0 < 2 ^ (e - ez)) by (apply Z.pow_pos_nonneg; unfold ez; lia). nia. }
  destruct (_ - _) as [|c|c] eqn:Hcq; try lia. cbn [binary_normalize].
  assert (Hez : -1074 <= ez) by (unfold ez; lia). clearbody ez.
  clear - Hez.
  (* the rounded difference keeps its sign and is not zero *)
  destruct (Z.le_gt_cases (Zpos (digits2_pos c)) 53) as [Hsmall|Hlarge].
  - set (e' := fexp prec emax (Zpos (digits2_pos c) + ez)).
    assert (He' : e' <= ez) by (unfold e', fexp, emin, prec, emax; lia).
    assert (Ht : exists t, Zpos t = Zpos c * 2 ^ (ez - e')).
    { exists (Z.to_pos (Zpos c * 2 ^ (ez - e'))). rewrite Z2Pos.id; [easy|].
      apply Z.mul_pos_pos; [lia|apply Z.pow_pos_nonneg; lia]. }
    destruct Ht as [t Ht].
    rewrite (binary_round_canonical true c t ez e').
    + now destruct (e' <=? emax - prec).
    + unfold canonical_mantissa. apply Z.eqb_eq.
      rewrite (digits2_shift c t (ez - e')) by (easy || lia).
      fold e'. unfold e', fexp, emin, prec, emax. lia.
    + left. now split.
  - unfold binary_round, shl_align.
    replace (fexp prec emax (Zpos (digits2_pos c) + ez) - ez)
      with (Zpos (digits2_pos c) - 53) by (unfold fexp, emin, prec, emax; lia).
    destruct (Zpos (digits2_pos c) - 53) as [|k|k] eqn:Hk; try lia.
    destruct (binary_round_aux_normal true c ez) as [->|(m' & e'' & -> & _)]; try lia;
      reflexivity.
Qed.

(** From one on, subtracting one is exact: the fraction stays and the
    integer part is one less. *)
Lemma fractional_sub_one (x : number) :
  fractional x -> 1 <= integer_part x ->
  fractional (x - of_Z 1)%num /\ integer_part (x - of_Z 1)%num = integer_part x - 1.
Proof.
  intros (m & e & -> & Hc & He & Hm) Hi. cbn [integer_part] in Hi |- *.
  apply canonical_digits in Hc as (Hd & Hemin & _).
  assert (Hpow : 0 < 2 ^ (- e)) by (apply Z.pow_pos_nonneg; lia).
  assert (Hge : 2 ^ (- e) <= Zpos m).
  { destruct (Z.lt_ge_cases (Zpos m) (2 ^ (- e))) as [Hlt|]; [|easy].
    rewrite Z.div_small in Hi; lia. }
  assert (Hgt : 2 ^ (- e) < Zpos m).
  { destruct (Z.eq_dec (2 ^ (- e)) (Zpos m)) as [Heq|]; [|lia].
    contradict Hm. rewrite <- Heq. apply Z.mod_same. lia. }
  assert (He52 : -52 <= e).
  { pose proof (digits2_bounds m) as [_ Hhi].
    assert (2 ^ Zpos (digits2_pos m) <= 2 ^ 53) by (apply Z.pow_le_mono_r; lia).
    destruct (Z.le_gt_cases (-52) e) as [|Hlow]; [easy|].
    assert (2 ^ 53 <= 2 ^ (- e)) by (apply Z.pow_le_mono_r; lia). lia. }
  (* the difference, as an integer multiple of [2 ^ e] *)
  set (a := Z.to_pos (Zpos m - 2 ^ (- e))).
  assert (Ha : Zpos a = Zpos m - 2 ^ (- e)) by (unfold a; rewrite Z2Pos.id; lia).
  assert (Hda : Zpos (digits2_pos a) <= 53).
  { apply digits_safe. pose proof (digits2_bounds m) as [_ Hhi].
    assert (2 ^ Zpos (digits2_pos m) <= 2 ^ 53) by (apply Z.pow_le_mono_r; lia). lia. }
  pose proof (Pos2Z.is_pos (digits2_pos a)) as Hda0.
  set (d := Zpos (digits2_pos a)) in *.
  set (t := Z.to_pos (Zpos a * 2 ^ (53 - d))).
  assert (Hp2 : 0 < 2 ^ (53 - d)) by (apply Z.pow_pos_nonneg; lia).
  assert (Ht : Zpos t = Zpos a * 2 ^ (53 - d)) by (unfold t; rewrite Z2Pos.id; lia).
  assert (Hsub : (S754_finite false m e - of_Z 1)%num = S754_finite false t (e + d - 53)).
  { rewrite of_Z_1. unfold Number.sub, SFsub. cbn [cond_Zopp].
    rewrite Z.min_r by lia. rewrite !shl_align_value by lia.
    replace (-52 - -52) with 0 by lia. rewrite Z.pow_0_r, Z.mul_1_r.
    assert (Hq : Zpos m * 2 ^ (e - -52) - 4503599627370496 = Zpos a * 2 ^ (e + 52)).
    { rewrite Ha, Z.mul_sub_distr_r, <- Z.pow_add_r by lia.
      replace (- e + (e + 52)) with 52 by lia. replace (e - -52) with (e + 52) by lia.
      reflexivity. }
    rewrite Hq.
    assert (Hq' : exists q, Zpos a * 2 ^ (e + 52) = Zpos q).
    { exists (Z.to_pos (Zpos a * 2 ^ (e + 52))). rewrite Z2Pos.id; [easy|].
      apply Z.mul_pos_pos; [lia|apply Z.pow_pos_nonneg; lia]. }
    destruct Hq' as [q Hq']. rewrite Hq'. cbn [binary_normalize].
    rewrite (binary_round_exact false a q t (e + 52) (-52)); fold d; try lia; try easy.
    f_equal. lia. }
  rewrite Hsub. cbn [integer_part].
  assert (Hdt : Zpos (digits2_pos t) = 53).
  { rewrite (digits2_shift a t (53 - d)); fold d; lia. }
  assert (Hexp : - (e + d - 53) = - e + (53 - d)) by lia.
  split.
  - exists t, (e + d - 53). repeat split.
    + apply digits_canonical; lia.
    + lia.
    + rewrite Hexp, Z.pow_add_r, Ht, Zmult_mod_distr_r by lia.
      rewrite Ha, <- (Z.mul_1_l (2 ^ (- e))) at 1.
      rewrite <- Zminus_mod_idemp_r, Z.mod_mul, Z.sub_0_r by lia.
      intros [?|?]%Z.mul_eq_0; lia.
  - rewrite Hexp, Z.pow_add_r, Ht, Z.div_mul_cancel_r by lia.
    rewrite Ha. replace (Zpos m - 2 ^ (- e)) with (Zpos m + (-1) * 2 ^ (- e)) by lia.
    rewrite Z.div_add by lia. lia.
Qed.

Lemma integer_part_nonneg (x : number) : 0 <= integer_part x.
Proof.
  destruct x as [| | |s m e]; cbn [integer_part]; try lia.
  destruct (Z.le_gt_cases e 0) as [He|He].
  - apply Z.div_pos; [lia|]. apply Z.pow_pos_nonneg; lia.
  - rewrite Z.pow_neg_r, Z.div_0_r by lia. lia.
Qed.

(** On a positive Number that is no integer, the recursion reaches a
    negative Number after [integer_part x + 1] steps. *)
Lemma factorial_fractional (k : nat) (x : number) :
  fractional x -> integer_part x = Z.of_nat k ->
  factorial (S (S k)) x = Some (Throw (Error negative_message)).
Proof.
  revert x. induction k as [|k IH]; intros x Hx Hi;
    destruct (fractional_tests x Hx) as (H1 & H2 & H3);
    rewrite factorial_step by easy.
  - cbn [factorial]. now rewrite (fractional_sub_one_negative x Hx Hi).
  - destruct (fractional_sub_one x Hx ltac:(lia)) as [Hy Hiy].
    rewrite (IH _ Hy); [reflexivity|lia].
Qed.

(** The finite Numbers that are no integers. *)
Lemma not_integer_cases (x : number) :
  is_number x = true -> is_finite x = true -> to_Z x = None ->
  (x <? of_Z 0)%num = true \/ fractional x.
Proof.
  intros Hv Hf Hz. destruct x as [s|s| |s m e]; try discriminate.
  destruct s; [now left|right].
  apply valid_finite in Hv as [Hc _]. cbn [to_Z] in Hz.
  destruct (Z.leb_spec 0 e); [discriminate|].
  destruct (Z.eqb_spec (Zpos m mod 2 ^ (- e)) 0); [discriminate|].
  now exists m, e.
Qed.

(** Below the depth [integer_part x + 2] the recursion has not yet reached
    the Number below zero; from that depth on it throws. *)
Lemma factorial_fractional_depth (k : nat) (x : number) (fuel : nat) :
  fractional x -> integer_part x = Z.of_nat k ->
  factorial fuel x
  = if (k + 2 <=? fuel)%nat then Some (Throw (Error negative_message)) else None.
Proof.
  revert x fuel. induction k as [|k IH]; intros x fuel Hx Hi;
    destruct (fractional_tests x Hx) as (H1 & H2 & H3);
    (destruct fuel as [|fuel]; [reflexivity|]);
    rewrite factorial_step by easy.
  - destruct fuel as [|fuel]; [reflexivity|].
    cbn [factorial]. now rewrite (fractional_sub_one_negative x Hx Hi).
  - destruct (fractional_sub_one x Hx ltac:(lia)) as [Hy Hiy].
    rewrite (IH _ fuel Hy) by lia.
    change (S k + 2 <=? S fuel)%nat with (k + 2 <=? fuel)%nat.
    now destruct (k + 2 <=? fuel)%nat.
Qed.

(** X6: on a finite Number that is no integer, [factorial] throws the
    error for negative numbers, and nothing else happens: a negative one
    is caught by the first test, at depth [1]; a positive one [x] is
    stepped down by one until the argument is below zero, and the call is
    exactly [floor x + 2] deep.  With less depth than that the call does
    not finish; with that depth or more it throws. *)
Theorem factorial_non_integer_throws (x : number) (fuel : nat) :
  is_number x = true -> is_finite x = true -> to_Z x = None ->
  let depth := if (x <? of_Z 0)%num then 1%nat else (Z.to_nat (integer_part x) + 2)%nat in
  factorial fuel x
  = if (depth <=? fuel)%nat then Some (Throw (Error negative_message)) else None.
Proof.
  intros Hv Hf Hz depth. subst depth.
  destruct (not_integer_cases x Hv Hf Hz) as [Hlt|Hfr].
  - rewrite Hlt. destruct fuel as [|fuel]; [reflexivity|].
    cbn [factorial Nat.leb]. now rewrite Hlt.
  - destruct (fractional_tests x Hfr) as (-> & _ & _).
    apply factorial_fractional_depth; [easy|].
    pose proof (integer_part_nonneg x). lia.
Qed.

Lemma factorial_non_integer_throws_witness :
  factorial 4 two_and_a_half = Some (Throw (Error negative_message))
  /\ factorial 3 two_and_a_half = None
  /\ factorial 1 neg_half = Some (Throw (Error negative_message)).
Proof.
  split; [|split].
  - apply (factorial_non_integer_throws two_and_a_half 4); reflexivity.
  - apply (factorial_non_integer_throws two_and_a_half 3); reflexivity.
  - apply (factorial_non_integer_throws neg_half 1); reflexivity.
Defined.

(** The Numbers that are integers: the negative ones, the two zeros, the
    integers below [2^53], and the normal numbers with a positive exponent. *)
Lemma integer_cases (x : number) (n : Z) :
  is_number x = true -> to_Z x = Some n ->
  (n < 0 /\ (x <? of_Z 0)%num = true)
  \/ (n = 0 /\ exists s, x = S754_zero s)
  \/ (1 <= n < 2 ^ 53 /\ x = of_Z n)
  \/ (2 ^ 53 <= n /\ exists m e, x = S754_finite false m e /\ Zpos (digits2_pos m) = 53
                                 /\ 1 <= e <= 971 /\ n = Zpos m * 2 ^ e).
Proof.
  intros Hv Hz. destruct x as [s|s| |s m e]; try discriminate.
  { injection Hz as <-. right; left. split; [easy|now exists s]. }
  apply valid_finite in Hv as [Hc He]. unfold emax, prec in He.
  pose proof (canonical_digits m e Hc) as (Hd & Hemin & Hnormal).
  pose proof (digits2_bounds m) as [Hlo Hhi].
  cbn [to_Z] in Hz.
  assert (Habs : exists k, 1 <= k /\ n = cond_Zopp s k /\
    ((0 <= e /\ k = Zpos m * 2 ^ e)
     \/ (e < 0 /\ Zpos m = k * 2 ^ (- e)))).
  { destruct (Z.leb_spec 0 e) as [He0|He0].
    - injection Hz as <-. exists (Zpos m * 2 ^ e). repeat split; [|now left].
      assert (0 < 2 ^ e) by (apply Z.pow_pos_nonneg; lia). nia.
    - destruct (Z.eqb_spec (Zpos m mod 2 ^ (- e)) 0) as [Hmod|]; [|discriminate].
      injection Hz as <-. assert (0 < 2 ^ (- e)) by (apply Z.pow_pos_nonneg; lia).
      assert (Hm : Zpos m = Zpos m / 2 ^ (- e) * 2 ^ (- e)).
      { rewrite (Z.div_mod (Zpos m) (2 ^ (- e))) at 1 by lia. lia. }
      exists (Zpos m / 2 ^ (- e)). repeat split; [nia|now right]. }
  destruct Habs as (k & Hk & -> & Hke).
  destruct s; [left; cbn; split; [lia|reflexivity]|]. cbn [cond_Zopp].
  right; right.
  destruct Hke as [[He0 ->]|[He0 Hm]].
  - assert (Hd53 : Zpos (digits2_pos m) = 53) by lia.
    rewrite Hd53 in Hlo, Hhi.
    destruct (Z.eq_dec e 0) as [->|Hne].
    + left. rewrite Z.pow_0_r, Z.mul_1_r. split; [lia|].
      now rewrite of_Z_normal.
    + right. split.
      * assert (2 ^ 1 <= 2 ^ e) by (apply Z.pow_le_mono_r; lia).
        change (2 ^ 53) with (2 ^ 52 * 2 ^ 1). change (53 - 1) with 52 in Hlo. nia.
      * exists m, e. repeat split; try easy; lia.
  - left. assert (Hp : 0 < 2 ^ (- e)) by (apply Z.pow_pos_nonneg; lia).
    assert (He52 : -52 <= e).
    { assert (2 ^ Zpos (digits2_pos m) <= 2 ^ 53) by (apply Z.pow_le_mono_r; lia).
      destruct (Z.le_gt_cases (-52) e) as [|Hlow]; [easy|].
      assert (2 ^ 53 <= 2 ^ (- e)) by (apply Z.pow_le_mono_r; lia). nia. }
    assert (Hd53 : Zpos (digits2_pos m) = 53) by lia.
    assert (Hk53 : k < 2 ^ 53).
    { assert (2 ^ Zpos (digits2_pos m) <= 2 ^ 53) by (apply Z.pow_le_mono_r; lia). nia. }
    split; [lia|].
    rewrite of_Z_safe by lia.
    destruct k as [|p|p]; try lia.
    assert (Hdp : Zpos (digits2_pos m) = Zpos (digits2_pos p) + - e)
      by (apply digits2_shift; [lia|easy]).
    assert (Hie : integer_exponent (Zpos p) = e)
      by (unfold integer_exponent; cbn [Zdigits2]; lia).
    f_equal; [|now rewrite Hie].
    unfold integer_mantissa. rewrite Hie, <- Hm. reflexivity.
Qed.

Lemma negative_to_Z (x : number) (n : Z) :
  is_number x = true -> (x <? of_Z 0)%num = true -> to_Z x = Some n -> n < 0.
Proof.
  intros Hv Hlt Hz.
  destruct (integer_cases x n Hv Hz)
    as [[? _]|[[_ [s ->]]|[[Hn ->]|[_ (m & e & -> & _)]]]].
  - easy.
  - destruct s; discriminate.
  - rewrite lt_zero_safe in Hlt by lia. discriminate.
  - discriminate.
Qed.

(** What [factorial] does on each Number. *)
Lemma factorial_behaviour (x : number) :
  is_number x = true ->
  ((exists n, to_Z x = Some n /\ 0 <= n <= 2 ^ 53 + 2)
   /\ exists fuel r, factorial fuel x = Some (Return r))
  \/ (((x <? of_Z 0)%num = true \/ (is_finite x = true /\ to_Z x = None))
      /\ exists fuel, factorial fuel x = Some (Throw (Error negative_message)))
  \/ ((x = NaN \/ x = Infinity \/ exists n, to_Z x = Some n /\ 2 ^ 53 + 2 < n)
      /\ forall fuel, factorial fuel x = None).
Proof.
  intros Hv.
  destruct (to_Z x) as [n|] eqn:Hz.
  - destruct (integer_cases x n Hv Hz)
      as [[Hn Hlt]|[[-> [s ->]]|[[Hn ->]|[Hn (m & e & -> & Hm & He & Hnm)]]]].
    + right; left. split; [now left|]. exists 1%nat. cbn [factorial]. now rewrite Hlt.
    + left. split; [exists 0; split; [easy|lia]|]. exists 1%nat, (of_Z 1). now destruct s.
    + left. split; [exists n; split; [easy|lia]|]. apply factorial_safe_terminates. lia.
    + pose proof (digits2_bounds m) as [Hlo Hhi]. rewrite Hm in Hlo, Hhi.
      change (2 ^ (53 - 1)) with 4503599627370496 in Hlo.
      change (2 ^ 53) with 9007199254740992 in *.
      destruct (Z.eq_dec e 1) as [->|He1].
      * change (2 ^ 1) with 2 in Hnm.
        destruct (Z.le_gt_cases (4503599627370496 + 2) (Zpos m)) as [Hbig|Hsmall].
        -- right; right. split; [right; right; exists n; split; [easy|lia]|].
           intros fuel. apply beyond_safe_diverges. right. exists m, 1.
           split; [reflexivity|]. split; [exact Hm|]. split; [lia|].
           intros _. change (2 ^ 52) with 4503599627370496. exact Hbig.
        -- left. split; [exists n; split; [easy|lia]|].
           assert (Hcases : m = 4503599627370496%positive \/ m = 4503599627370497%positive) by lia.
           destruct Hcases as [->| ->].
           ++ replace (S754_finite false 4503599627370496 1) with (of_Z 9007199254740992)
                by (vm_compute; reflexivity).
              apply factorial_near_safe. change (2 ^ 53) with 9007199254740992. lia.
           ++ replace (S754_finite false 4503599627370497 1) with (of_Z 9007199254740994)
                by (vm_compute; reflexivity).
              apply factorial_near_safe. change (2 ^ 53) with 9007199254740992. lia.
      * right; right.
        assert (2 ^ 2 <= 2 ^ e) by (apply Z.pow_le_mono_r; lia).
        change (2 ^ 2) with 4 in *.
        split; [right; right; exists n; split; [easy|nia]|].
        intros fuel. apply beyond_safe_diverges. right. exists m, e.
        split; [reflexivity|]. split; [exact Hm|]. split; [lia|]. intros ->. lia.
  - destruct (is_finite x) eqn:Hf.
    + right; left. split; [now right|].
      destruct (not_integer_cases x Hv Hf Hz) as [Hlt|Hfr].
      * exists 1%nat. cbn [factorial]. now rewrite Hlt.
      * exists (S (S (Z.to_nat (integer_part x)))). apply factorial_fractional; [easy|].
        pose proof (integer_part_nonneg x). lia.
    + destruct x as [s|[]| |s m e]; try discriminate.
      * right; left. split; [now left|]. now exists 1%nat.
      * right; right. split; [now (right; left)|]. intros fuel.
        apply beyond_safe_diverges. now left.
      * right; right. split; [now left|]. intros fuel. now apply factorial_stuck.
Qed.

Lemma factorial_throws_error (fuel : nat) (x : number) (e : exception) :
  factorial fuel x = Some (Throw e) -> e = Error negative_message.
Proof.
  revert x. induction fuel as [|fuel IH]; intros x; [discriminate|].
  rewrite factorial_S.
  destruct (x <? of_Z 0)%num; [now intros [= <-]|].
  destruct ((x === of_Z 0)%num || (x === of_Z 1)%num); [discriminate|].
  pose proof (IH (x - of_Z 1)%num) as IH'.
  destruct (factorial fuel (x - of_Z 1)%num) as [[r|e']|]; try discriminate.
  intros [= <-]. now apply IH'.
Qed.

(** X7: on a Number, [factorial] returns exactly on the integers from [0]
    to [2^53 + 2] (the zero [-0] included); it throws exactly on the
    negative Numbers, [-Infinity] included, and on the finite Numbers that
    are no integers, and then always the error for negative numbers; and
    the recursion never ends exactly on [NaN], on [Infinity] and on the
    integers above [2^53 + 2]. *)
Theorem factorial_outcomes (x : number) :
  is_number x = true ->
  (forall fuel e, factorial fuel x = Some (Throw e) -> e = Error negative_message)
  /\ ((exists fuel r, factorial fuel x = Some (Return r))
     <-> exists n, to_Z x = Some n /\ 0 <= n <= 2 ^ 53 + 2)
  /\ ((exists fuel e, factorial fuel x = Some (Throw e))
     <-> (x <? of_Z 0)%num = true \/ (is_finite x = true /\ to_Z x = None))
  /\ ((forall fuel, factorial fuel x = None)
     <-> x = NaN \/ x = Infinity \/ exists n, to_Z x = Some n /\ 2 ^ 53 + 2 < n).
Proof.
  intros Hv. split; [intros fuel e; apply factorial_throws_error|].
  assert (Hex12 : (exists n, to_Z x = Some n /\ 0 <= n <= 2 ^ 53 + 2) ->
                  ((x <? of_Z 0)%num = true \/ (is_finite x = true /\ to_Z x = None)) -> False).
  { intros (n & Hn & Hr) [Hlt|[_ Hz]]; [|congruence].
    pose proof (negative_to_Z x n Hv Hlt Hn). lia. }
  assert (Hex13 : (exists n, to_Z x = Some n /\ 0 <= n <= 2 ^ 53 + 2) ->
                  (x = NaN \/ x = Infinity \/ exists n, to_Z x = Some n /\ 2 ^ 53 + 2 < n) -> False).
  { intros (n & Hn & Hr) [->|[->|(n' & Hn' & Hr')]]; try discriminate.
    rewrite Hn in Hn'. injection Hn' as <-. lia. }
  assert (Hex23 : ((x <? of_Z 0)%num = true \/ (is_finite x = true /\ to_Z x = None)) ->
                  (x = NaN \/ x = Infinity \/ exists n, to_Z x = Some n /\ 2 ^ 53 + 2 < n) -> False).
  { intros [Hlt|[Hf Hz]] [->|[->|(n' & Hn' & Hr')]]; try discriminate; try congruence.
    pose proof (negative_to_Z x n' Hv Hlt Hn'). lia. }
  destruct (factorial_behaviour x Hv)
    as [[HA (fuel & r & Hret)]|[[HB (fuel & Hthrow)]|[HC Hnone]]]; repeat split.
  - easy.
  - intros _. now exists fuel, r.
  - intros (fuel' & e & He). pose proof (factorial_fuel_unique _ _ _ _ _ Hret He). discriminate.
  - intros HB. now destruct (Hex12 HA HB).
  - intros Hnone. now rewrite Hnone in Hret.
  - intros HC. now destruct (Hex13 HA HC).
  - intros (fuel' & r & Hr). pose proof (factorial_fuel_unique _ _ _ _ _ Hthrow Hr). discriminate.
  - intros HA. now destruct (Hex12 HA HB).
  - easy.
  - intros _. now exists fuel, (Error negative_message).
  - intros Hnone. now rewrite Hnone in Hthrow.
  - intros HC. now destruct (Hex23 HB HC).
  - intros (fuel & r & Hr). now rewrite Hnone in Hr.
  - intros HA. now destruct (Hex13 HA HC).
  - intros (fuel & e & He). now rewrite Hnone in He.
  - intros HB. now destruct (Hex23 HB HC).
  - easy.
  - easy.
Qed.

Lemma factorial_outcomes_witness :
  (exists fuel e, factorial fuel two_and_a_half = Some (Throw e))
  /\ ~ (exists fuel r, factorial fuel two_and_a_half = Some (Return r))
  /\ (exists fuel r, factorial fuel neg_zero = Some (Return r))
  /\ forall fuel, factorial fuel NaN = None.
Proof.
  split; [|split; [|split]].
  - apply (proj1 (proj2 (proj2 (factorial_outcomes two_and_a_half eq_refl)))).
    right. split; reflexivity.
  - intros H.
    apply (proj1 (proj2 (factorial_outcomes two_and_a_half eq_refl))) in H
      as (n & Hn & _). discriminate Hn.
  - apply (proj1 (proj2 (factorial_outcomes neg_zero eq_refl))).
    exists 0. split; [reflexivity|]. simpl; lia.
  - apply (proj2 (proj2 (proj2 (factorial_outcomes NaN eq_refl)))). now left.
Defined.

(** X8: on an integer [0 <= n < 2^53] the recursion of [factorial] is
    exactly [max n 1] calls deep: a depth bound lets the call finish if and
    only if it is at least that. *)
Theorem factorial_depth (fuel : nat) (n : Z) :
  0 <= n < 2 ^ 53 ->
  factorial fuel (of_Z n) <> None <-> Z.max n 1 <= Z.of_nat fuel.
Proof.
  revert n. induction fuel as [|fuel IH]; intros n Hn.
  - cbn [factorial]. split; [easy|lia].
  - destruct (Z.le_gt_cases n 1) as [Hle|Hgt].
    + assert (n = 0 \/ n = 1) as [-> | ->] by lia; (split; [lia|discriminate]).
    + rewrite factorial_step by (first [apply lt_zero_safe|apply eq_zero_safe|apply eq_one_safe]; lia).
      rewrite sub_one_safe by lia. specialize (IH (n - 1) ltac:(lia)).
      destruct (factorial fuel (of_Z (n - 1))) as [[r|e]|].
      * split; [intros _|discriminate]. assert (Z.max (n - 1) 1 <= Z.of_nat fuel) by now apply IH. lia.
      * split; [intros _|discriminate]. assert (Z.max (n - 1) 1 <= Z.of_nat fuel) by now apply IH. lia.
      * split; [easy|]. intros Hf. exfalso. apply IH; [lia|reflexivity].
Qed.

Lemma factorial_depth_witness :
  factorial 5 (of_Z 5) <> None /\ ~ factorial 4 (of_Z 5) <> None.
Proof.
  split.
  - apply (factorial_depth 5 5); simpl; lia.
  - intros H. apply (factorial_depth 4 5) in H; simpl in *; lia.
Defined.

(** *** Overflow *)

Lemma mul_finite_r (x r : number) : is_finite (x * r)%num = true -> is_finite r = true.
Proof. destruct r as [| | |]; try reflexivity; destruct x as [| | |]; cbn; easy. Qed.

Lemma mul_infinity_r (n : Z) : 1 <= n < 2 ^ 53 -> (of_Z n * Infinity)%num = Infinity.
Proof. intros Hn. now rewrite of_Z_safe. Qed.

Lemma factorial_171 : factorial 172 (of_Z 171) = Some (Return Infinity).
Proof. vm_compute. reflexivity. Qed.

Lemma factorial_170 : exists r, factorial 171 (of_Z 170) = Some (Return r) /\ is_finite r = true.
Proof. vm_compute. eexists. split; reflexivity. Qed.

Lemma factorial_safe_step (n : nat) :
  Z.of_nat n + 2 < 2 ^ 53 ->
  factorial (S (S (S n))) (of_Z (Z.of_nat n + 2))
  = match factorial (S (S n)) (of_Z (Z.of_nat n + 1)) with
    | Some (Return r) => Some (Return (of_Z (Z.of_nat n + 2) * r)%num)
    | Some (Throw e) => Some (Throw e)
    | None => None
    end.
Proof.
  intros Hn.
  rewrite factorial_step by (first [apply lt_zero_safe|apply eq_zero_safe|apply eq_one_safe]; lia).
  rewrite sub_one_safe by lia.
  now replace (Z.of_nat n + 2 - 1) with (Z.of_nat n + 1) by lia.
Qed.

Lemma factorial_infinite (k : nat) :
  171 + Z.of_nat k < 2 ^ 53 ->
  factorial (172 + k) (of_Z (171 + Z.of_nat k)) = Some (Return Infinity).
Proof.
  induction k as [|k IH]; intros Hk.
  { change (172 + 0)%nat with 172%nat. change (171 + Z.of_nat 0) with 171.
    apply factorial_171. }
  replace (172 + S k)%nat with (S (S (S (170 + k)))) by lia.
  replace (171 + Z.of_nat (S k)) with (Z.of_nat (170 + k) + 2) by lia.
  rewrite factorial_safe_step by lia.
  replace (Z.of_nat (170 + k) + 1) with (171 + Z.of_nat k) by lia.
  change (S (S (170 + k))) with (172 + k)%nat. rewrite IH by lia.
  rewrite mul_infinity_r; [reflexivity|lia].
Qed.

Lemma factorial_finite (k : nat) :
  (k <= 170)%nat ->
  exists r, factorial (S (170 - k)) (of_Z (Z.of_nat (170 - k))) = Some (Return r)
            /\ is_finite r = true.
Proof.
  induction k as [|k IH]; intros Hk.
  { change (170 - 0)%nat with 170%nat. change (Z.of_nat 170) with 170.
    apply factorial_170. }
  destruct IH as (r' & Hr' & Hf'); [lia|].
  destruct (170 - S k)%nat as [|j] eqn:Hj.
  { exists (of_Z 1). split; reflexivity. }
  replace (170 - k)%nat with (S (S j)) in Hr' by lia.
  replace (Z.of_nat (S (S j))) with (Z.of_nat j + 2) in Hr' by lia.
  rewrite factorial_safe_step in Hr' by (change (2 ^ 53) with 9007199254740992; lia).
  replace (Z.of_nat (S j)) with (Z.of_nat j + 1) by lia.
  destruct (factorial (S (S j)) (of_Z (Z.of_nat j + 1))) as [[r|e]|]; try discriminate.
  exists r. split; [reflexivity|]. injection Hr' as <-. now apply mul_finite_r in Hf'.
Qed.

(** What a call that returns has returned, by the size of [n]. *)
Lemma factorial_result_size (n : Z) (fuel : nat) (r : number) :
  0 <= n < 2 ^ 53 -> factorial fuel (of_Z n) = Some (Return r) ->
  if n <=? 170 then is_finite r = true else r = Infinity.
Proof.
  intros Hn Hr. destruct (Z.leb_spec n 170) as [Hle|Hgt].
  - destruct (factorial_finite (170 - Z.to_nat n)) as (r' & Hr' & Hf); [lia|].
    replace (170 - (170 - Z.to_nat n))%nat with (Z.to_nat n) in Hr' by lia.
    rewrite Z2Nat.id in Hr' by lia.
    pose proof (factorial_fuel_unique _ _ _ _ _ Hr Hr') as [= ->]. exact Hf.
  - pose proof (factorial_infinite (Z.to_nat (n - 171)) ltac:(lia)) as Hinf.
    replace (171 + Z.of_nat (Z.to_nat (n - 171))) with n in Hinf by lia.
    now pose proof (factorial_fuel_unique _ _ _ _ _ Hr Hinf) as [= ->].
Qed.

(** X9: for an integer [0 <= n < 2^53], [factorial(n)] returns, at every
    depth of recursion above [n], one and the same Number: a finite one
    if [n <= 170], and [Infinity] if [n >= 171]. *)
Theorem factorial_overflow (n : Z) :
  0 <= n < 2 ^ 53 ->
  exists r,
    (forall fuel, (Z.to_nat n < fuel)%nat -> factorial fuel (of_Z n) = Some (Return r))
    /\ if n <=? 170 then is_finite r = true else r = Infinity.
Proof.
  intros Hn. destruct (factorial_safe_returns (Z.to_nat n)) as [r Hr]; [lia|].
  rewrite Z2Nat.id in Hr by lia.
  exists r. split.
  - intros fuel Hfuel. apply (factorial_fuel_le (S (Z.to_nat n))); [lia|exact Hr].
  - exact (factorial_result_size n _ r Hn Hr).
Qed.

Lemma factorial_overflow_witness :
  (exists r, (forall fuel, (5 < fuel)%nat -> factorial fuel (of_Z 5) = Some (Return r))
             /\ is_finite r = true)
  /\ (exists r, (forall fuel, (171 < fuel)%nat -> factorial fuel (of_Z 171) = Some (Return r))
                /\ r = Infinity).
Proof.
  split.
  - apply (factorial_overflow 5). simpl; lia.
  - apply (factorial_overflow 171). simpl; lia.
Defined.

(** *** The size of a result *)

Lemma le_finite (m m' : positive) (e e' : Z) :
  e < e' \/ (e = e' /\ (m <= m')%positive) ->
  number_le (S754_finite false m e) (S754_finite false m' e') = true.
Proof.
  unfold number_le, SFleb, SFcompare.
  change (Pos.compare_cont Eq m m') with (m ?= m')%positive.
  intros [He|[-> Hm]].
  - now replace (e ?= e') with Lt by (symmetry; now apply Z.compare_lt_iff).
  - rewrite Z.compare_refl. destruct (Pos.compare_spec m m'); try reflexivity. lia.
Qed.

Lemma from_one_le (r : number) : from_one r -> number_le (of_Z 1) r = true.
Proof.
  intros [->|(m & e & -> & Hm & He)]; [reflexivity|].
  rewrite of_Z_1. apply le_finite.
  pose proof (digits2_bounds m) as [Hlo _]. rewrite Hm in Hlo.
  change (2 ^ (53 - 1)) with (Zpos 4503599627370496) in Hlo.
  destruct (Z.eq_dec e (-52)) as [->|]; [right|left]; lia.
Qed.

Lemma integral_from_one (x : number) :
  nonneg_integral x -> (x === of_Z 0)%num = false -> from_one x.
Proof.
  intros [(k & Hk & ->)|[(m & e & -> & Hm & He)| ->]] H0.
  - destruct (Z.eq_dec k 0) as [->|Hk0]; [discriminate|].
    rewrite of_Z_safe by lia. right.
    exists (integer_mantissa k), (integer_exponent k).
    split; [reflexivity|]. split; [apply digits_integer_mantissa; lia|].
    apply exponent_range. lia.
  - right. exists m, e. split; [reflexivity|]. split; [easy|lia].
  - now left.
Qed.

Lemma mul_from_one (x r : number) : from_one x -> from_one r -> from_one (x * r)%num.
Proof.
  intros [->|(mx & ex & -> & Hmx & Hex)] [->|(mr & er & -> & Hmr & Her)];
    try (left; reflexivity).
  unfold Number.mul, SFmul. cbn [xorb].
  pose proof (digits2_mul mx mr) as Hd.
  destruct (binary_round_aux_normal false (mx * mr) (ex + er))
    as [->|(m & e & -> & Hm & He & _)]; try lia; [now left|].
  right. exists m, e. split; [reflexivity|]. split; [easy|lia].
Qed.

Lemma factorial_from_one (fuel : nat) (x r : number) :
  nonneg_integral x -> factorial fuel x = Some (Return r) -> from_one r.
Proof.
  revert x r. induction fuel as [|fuel IH]; intros x r Hx; [discriminate|].
  rewrite factorial_S, (integral_not_negative x Hx).
  destruct ((x === of_Z 0)%num || (x === of_Z 1)%num) eqn:Hb.
  - intros [= <-]. right. exists 4503599627370496%positive, (-52).
    split; [reflexivity|]. split; [reflexivity|lia].
  - apply orb_false_elim in Hb as [H0 H1].
    pose proof (fun r' => IH _ r' (sub_one_integral x Hx H0 H1)) as IH'.
    destruct (factorial fuel (x - of_Z 1)%num) as [[r'|e']|]; try discriminate.
    intros [= <-]. apply mul_from_one; [now apply integral_from_one|now apply IH'].
Qed.

(** X10: whatever Number [factorial] is called on, a result it returns is
    at least [1]: never [NaN], zero or negative. *)
Theorem factorial_at_least_one (fuel : nat) (x r : number) :
  is_number x = true -> factorial fuel x = Some (Return r) ->
  number_le (of_Z 1) r = true.
Proof.
  intros Hv Hr.
  destruct (factorial_behaviour x Hv)
    as [[(n & Hz & Hn) _]|[[_ (fuel' & Hthrow)]|[_ Hnone]]].
  - destruct (integer_cases x n Hv Hz)
      as [[? _]|[[_ [s ->]]|[[Hn' ->]|[_ (m & e & -> & Hm & He & _)]]]].
    + lia.
    + destruct fuel as [|fuel]; [discriminate|].
      rewrite factorial_S in Hr.
      replace (S754_zero s <? of_Z 0)%num with false in Hr by now destruct s.
      replace (S754_zero s === of_Z 0)%num with true in Hr by now destruct s.
      cbn [orb] in Hr. injection Hr as <-. reflexivity.
    + apply from_one_le, (factorial_from_one fuel (of_Z n)); [|easy].
      apply of_Z_nonneg. lia.
    + apply from_one_le, (factorial_from_one fuel (S754_finite false m e)); [|easy].
      right; left. now exists m, e.
  - pose proof (factorial_fuel_unique _ _ _ _ _ Hr Hthrow). discriminate.
  - now rewrite Hnone in Hr.
Qed.

Lemma factorial_at_least_one_witness :
  factorial 6 (of_Z 5) = Some (Return (of_Z 120)) /\ number_le (of_Z 1) (of_Z 120) = true.
Proof.
  split; [vm_compute; reflexivity|].
  apply (factorial_at_least_one 6 (of_Z 5) (of_Z 120)); vm_compute; reflexivity.
Defined.

End FactorialOutcomes.

(** ** Results are Numbers *)

Section NumberResults.
Import Number NumberFacts.

(** *** Rounding gives Numbers *)

Lemma fexp_value (z : Z) : fexp prec emax z = Z.max (z - 53) (-1074).
Proof. reflexivity. Qed.

Lemma digits_le (p : positive) (w : Z) : Zpos p < 2 ^ w -> Zpos (digits2_pos p) <= w.
Proof.
  intros Hp. pose proof (digits2_bounds p) as [Hlo _].
  destruct (Z.le_gt_cases (Zpos (digits2_pos p)) w) as [|Hgt]; [easy|].
  assert (0 <= w).
  { destruct (Z.le_gt_cases 0 w); [easy|]. rewrite Z.pow_neg_r in Hp; lia. }
  assert (2 ^ w <= 2 ^ (Zpos (digits2_pos p) - 1)) by (apply Z.pow_le_mono_r; lia). lia.
Qed.

(** The first shift of [binary_round_aux]: the exponent becomes the one
    the digits call for, and the mantissa has at most 53 digits, exactly
    53 in the normal range. *)
Lemma shr_fexp_first (M : positive) (e0 : Z) :
  let E1 := fexp prec emax (Zpos (digits2_pos M) + e0) in
  e0 <= E1 ->
  exists r1, shr_fexp prec emax (Zpos M) e0 loc_Exact = (r1, E1)
    /\ 0 <= shr_m r1 < 2 ^ 53
    /\ (-1074 < E1 -> 2 ^ 52 <= shr_m r1)
    /\ (E1 = -1074 -> Zpos (digits2_pos M) + e0 - 53 < -1074 -> shr_m r1 < 2 ^ 52).
Proof.
  intros E1 HE. pose proof (digits2_bounds M) as [Hlo Hhi].
  pose proof (Pos2Z.is_pos (digits2_pos M)) as HD0.
  unfold shr_fexp, Zdigits2, shr_record_of_loc. fold E1.
  assert (HE1 : E1 = Z.max (Zpos (digits2_pos M) + e0 - 53) (-1074)) by apply fexp_value.
  set (D := Zpos (digits2_pos M)) in *. clearbody E1 D.
  destruct (E1 - e0) as [|k|k] eqn:Hk; try lia.
  - exists {| shr_m := Zpos M; shr_r := false; shr_s := false |}.
    split; [cbn [shr]; f_equal; lia|]. cbn [shr_m].
    assert (HD : D <= 53) by lia.
    assert (2 ^ D <= 2 ^ 53) by (apply Z.pow_le_mono_r; lia).
    split; [lia|]. split.
    + intros Hn. replace D with 53 in Hlo by lia. exact Hlo.
    + intros -> Hsub.
      assert (2 ^ D <= 2 ^ 52) by (apply Z.pow_le_mono_r; lia). lia.
  - eexists. split; [cbn [shr]; f_equal; lia|].
    rewrite shr_m_iter by (cbn [shr_m]; lia). cbn [shr_m].
    assert (Hp : 0 < 2 ^ Zpos k) by (apply Z.pow_pos_nonneg; lia).
    assert (Hw : D - Zpos k <= 53) by lia.
    assert (Hup : forall w, D - Zpos k <= w -> 0 <= w -> Zpos M / 2 ^ Zpos k < 2 ^ w).
    { intros w Hw1 Hw2. apply Z.div_lt_upper_bound; [lia|].
      rewrite <- Z.pow_add_r by lia.
      assert (2 ^ D <= 2 ^ (Zpos k + w)) by (apply Z.pow_le_mono_r; lia). lia. }
    split; [split; [apply Z.div_pos; lia|apply Hup; lia]|]. split.
    + intros Hn. apply Z.div_le_lower_bound; [lia|].
      rewrite <- Z.pow_add_r by lia.
      replace (Zpos k + 52) with (D - 1) by lia. exact Hlo.
    + intros -> Hsub. apply Hup; lia.
Qed.

Lemma finite_is_number (s : bool) (m : positive) (e : Z) :
  fexp prec emax (Zpos (digits2_pos m) + e) = e -> e <= 971 ->
  is_number (S754_finite s m e) = true.
Proof.
  intros Hc He. unfold is_number, valid_binary, bounded, canonical_mantissa.
  apply andb_true_iff. split; [now apply Z.eqb_eq|]. apply Z.leb_le. unfold emax, prec. lia.
Qed.

(** Rounding a mantissa whose exponent is not above the one its digits
    call for gives a Number. *)
Lemma binary_round_aux_is_number (s : bool) (M : positive) (e0 : Z) :
  e0 <= fexp prec emax (Zpos (digits2_pos M) + e0) ->
  is_number (binary_round_aux prec emax s (Zpos M) e0 loc_Exact) = true.
Proof.
  intros HE. destruct (shr_fexp_first M e0 HE) as (r1 & H1 & Hr & Hnorm & Hsub).
  unfold binary_round_aux. rewrite H1.
  pose proof (fexp_value (Zpos (digits2_pos M) + e0)) as HE1.
  set (E1 := fexp prec emax (Zpos (digits2_pos M) + e0)) in *. clearbody E1.
  pose proof (round_nearest_even_bounds (shr_m r1) (loc_of_shr_record r1)) as Hm2.
  set (m2 := round_nearest_even (shr_m r1) (loc_of_shr_record r1)) in *. clearbody m2.
  destruct m2 as [|p|p]; try lia.
  - (* rounded to zero *)
    unfold shr_fexp. cbn [Zdigits2 shr_record_of_loc]. rewrite fexp_value.
    destruct (Z.max (0 + E1 - 53) (-1074) - E1) as [|k|k] eqn:Hk; try lia; reflexivity.
  - destruct (Z.eq_dec (Zpos p) (2 ^ 53)) as [Hp|Hp].
    + (* rounded up to [2 ^ 53]: one more shift *)
      assert (p = 9007199254740992%positive) as -> by (apply Pos2Z.inj; rewrite Hp; reflexivity).
      unfold shr_fexp. change (Zdigits2 9007199254740992) with 54. rewrite fexp_value.
      replace (Z.max (54 + E1 - 53) (-1074) - E1) with 1 by lia.
      cbn [shr SpecFloat.iter_pos shr_record_of_loc shr_1 shr_m].
      destruct (E1 + 1 <=? emax - prec) eqn:Hle; [|reflexivity].
      apply Z.leb_le in Hle. unfold emax, prec in Hle.
      apply finite_is_number; [|lia]. rewrite fexp_value.
      change (Zpos (digits2_pos 4503599627370496)) with 53. lia.
    + assert (Hp53 : Zpos p < 2 ^ 53) by lia.
      pose proof (digits_le p 53 Hp53) as Hdp.
      pose proof (Pos2Z.is_pos (digits2_pos p)) as Hdp0.
      assert (Hcan : Z.max (Zpos (digits2_pos p) + E1 - 53) (-1074) = E1).
      { destruct (Z.eq_dec E1 (-1074)) as [->|HnE]; [lia|].
        assert (Hd53 : Zpos (digits2_pos p) = 53).
        { apply digits2_unique. change (2 ^ (53 - 1)) with (2 ^ 52). lia. }
        lia. }
      unfold shr_fexp. cbn [Zdigits2]. rewrite fexp_value, Hcan, Z.sub_diag.
      cbn [shr shr_record_of_loc shr_m].
      destruct (E1 <=? emax - prec) eqn:Hle; [|reflexivity].
      apply Z.leb_le in Hle. unfold emax, prec in Hle.
      apply finite_is_number; [|lia]. now rewrite fexp_value.
Qed.

Lemma binary_round_is_number (s : bool) (q : positive) (e : Z) :
  is_number (binary_round prec emax s q e) = true.
Proof.
  unfold binary_round.
  pose proof (fexp_value (Zpos (digits2_pos q) + e)) as HE.
  set (E := fexp prec emax (Zpos (digits2_pos q) + e)) in *.
  destruct (Z.le_gt_cases e E) as [Hle|Hgt].
  - replace (shl_align q e E) with (q, e)
      by (unfold shl_align; destruct (E - e) as [|k|k] eqn:Hk; try lia; reflexivity).
    now apply binary_round_aux_is_number.
  - destruct (shl_align q e E) as [mz ez] eqn:Hal.
    assert (Hmz : Zpos mz = Zpos q * 2 ^ (e - E)).
    { pose proof (shl_align_value q e E ltac:(lia)) as Hv. now rewrite Hal in Hv. }
    assert (Hez : ez = E).
    { unfold shl_align in Hal. destruct (E - e) as [|k|k] eqn:Hk; try lia.
      now injection Hal as _ <-. }
    subst ez. apply binary_round_aux_is_number.
    rewrite (digits2_shift q mz (e - E)) by (lia || easy).
    replace (Zpos (digits2_pos q) + (e - E) + E) with (Zpos (digits2_pos q) + e) by lia.
    fold E. lia.
Qed.

Lemma binary_normalize_is_number (c e : Z) :
  is_number (binary_normalize prec emax c e false) = true.
Proof. destruct c as [|p|p]; cbn [binary_normalize]; [reflexivity| |]; apply binary_round_is_number. Qed.

Lemma add_is_number (a b : number) :
  is_number a = true -> is_number b = true -> is_number (a + b)%num = true.
Proof.
  intros Ha Hb. destruct a as [sa|sa| |sa ma ea], b as [sb|sb| |sb mb eb];
    lazymatch goal with
    | |- is_number (S754_finite _ _ _ + S754_finite _ _ _)%num = true =>
        unfold Number.add, SFadd; apply binary_normalize_is_number
    | _ => cbn [Number.add SFadd]; first [assumption|now destruct sa, sb]
    end.
Qed.

Lemma sub_is_number (a b : number) :
  is_number a = true -> is_number b = true -> is_number (a - b)%num = true.
Proof.
  intros Ha Hb. destruct a as [sa|sa| |sa ma ea], b as [sb|sb| |sb mb eb];
    lazymatch goal with
    | |- is_number (S754_finite _ _ _ - S754_finite _ _ _)%num = true =>
        unfold Number.sub, SFsub; apply binary_normalize_is_number
    | _ => cbn [Number.sub SFsub]; first [assumption|now destruct sa, sb|now destruct sb]
    end.
Qed.

Lemma mul_is_number (a b : number) :
  is_number a = true -> is_number b = true -> is_number (a * b)%num = true.
Proof.
  intros Ha Hb. destruct a as [sa|sa| |sa ma ea], b as [sb|sb| |sb mb eb];
    try reflexivity.
  apply valid_finite in Ha as [Hca _]. apply valid_finite in Hb as [Hcb _].
  apply canonical_digits in Hca as (Hda & Hea & Hna).
  apply canonical_digits in Hcb as (Hdb & Heb & Hnb).
  unfold Number.mul, SFmul. apply binary_round_aux_is_number.
  pose proof (digits2_mul ma mb) as Hd.
  pose proof (Pos2Z.is_pos (digits2_pos ma)). pose proof (Pos2Z.is_pos (digits2_pos mb)).
  rewrite fexp_value. lia.
Qed.

Lemma factorial_is_number (fuel : nat) (x r : number) :
  is_number x = true -> factorial fuel x = Some (Return r) -> is_number r = true.
Proof.
  revert x r. induction fuel as [|fuel IH]; intros x r Hx; [discriminate|].
  rewrite factorial_S.
  destruct (x <? of_Z 0)%num; [discriminate|].
  destruct ((x === of_Z 0)%num || (x === of_Z 1)%num); [now intros [= <-]|].
  pose proof (fun r' => IH (x - of_Z 1)%num r' (sub_is_number x (of_Z 1) Hx eq_refl)) as IH'.
  destruct (factorial fuel (x - of_Z 1)%num) as [[r'|e']|]; try discriminate.
  intros [= <-]. apply mul_is_number; [exact Hx|now apply IH'].
Qed.

(** Doubling is exact, up to overflow. *)
Lemma add_self (x : number) : is_number x = true -> (x + x)%num = (of_Z 2 * x)%num.
Proof.
  intros Hx. destruct x as [s|s| |s m e]; try (now destruct s); try reflexivity.
  apply valid_finite in Hx as [Hc He].
  pose proof (canonical_digits m e Hc) as (Hd & Hemin & Hnormal).
  pose proof (Pos2Z.is_pos (digits2_pos m)) as Hd0.
  (* the canonical mantissa and exponent of the double *)
  assert (Hte : exists t e', canonical_mantissa prec emax t e' = true
                 /\ e <= e' <= e + 1 /\ Zpos t * 2 ^ (e' - e) = 2 * Zpos m).
  { destruct (Z.eq_dec (Zpos (digits2_pos m)) 53) as [H53|H53].
    - exists m, (e + 1). split; [apply digits_canonical; lia|]. split; [lia|].
      replace (e + 1 - e) with 1 by lia. change (2 ^ 1) with 2. lia.
    - exists (m~0)%positive, e. split.
      + unfold canonical_mantissa. apply Z.eqb_eq. rewrite fexp_value.
        cbn [digits2_pos]. rewrite Pos2Z.inj_succ. lia.
      + split; [lia|]. rewrite Z.sub_diag, Z.pow_0_r. lia. }
  destruct Hte as (t & e' & Hcan & He' & Hval).
  assert (Hsum : (S754_finite s m e + S754_finite s m e)%num
                 = if e' <=? emax - prec then S754_finite s t e' else S754_infinity s).
  { unfold Number.add, SFadd. rewrite Z.min_id.
    replace (Zpos (fst (shl_align m e e))) with (Zpos m)
      by (rewrite shl_align_value, Z.sub_diag, Z.pow_0_r by lia; lia).
    destruct s; cbn [cond_Zopp].
    - change (- Zpos m + - Zpos m) with (Zneg (m + m)). cbn [binary_normalize].
      rewrite Pos.add_diag. apply binary_round_canonical; [easy|].
      right. split; [lia|]. rewrite Hval. reflexivity.
    - change (Zpos m + Zpos m) with (Zpos (m + m)). cbn [binary_normalize].
      rewrite Pos.add_diag. apply binary_round_canonical; [easy|].
      right. split; [lia|]. rewrite Hval. reflexivity. }
  rewrite Hsum. symmetry.
  replace (of_Z 2) with (S754_finite false 4503599627370496 (-51)) by reflexivity.
  unfold Number.mul, SFmul. cbn [xorb].
  rewrite (binary_round_aux_exact s (4503599627370496 * m) t (e' - e + 51) (-51 + e)).
  - replace (-51 + e + (e' - e + 51)) with e' by lia. reflexivity.
  - lia.
  - rewrite Pos2Z.inj_mul.
    replace (e' - e + 51) with (51 + (e' - e)) by lia. rewrite Z.pow_add_r by lia.
    change (Zpos 4503599627370496) with (2 * 2 ^ 51). nia.
  - now replace (-51 + e + (e' - e + 51)) with e' by lia.
Qed.

(** X14: [add], [multiply] and [factorial] keep to the Numbers: on
    binary64 values their results are binary64 values again, with a
    canonical mantissa and an exponent in range, or a zero, an infinity or
    [NaN]. *)
Theorem results_are_numbers (a b r : number) (fuel : nat) :
  is_number a = true -> is_number b = true ->
  is_number (add a b) = true
  /\ is_number (multiply a b) = true
  /\ (factorial fuel a = Some (Return r) -> is_number r = true).
Proof.
  intros Ha Hb. split; [now apply add_is_number|]. split; [now apply mul_is_number|].
  now apply factorial_is_number.
Qed.

Lemma results_are_numbers_witness :
  is_number (add two_and_a_half neg_half) = true
  /\ is_number (multiply two_and_a_half neg_half) = true
  /\ is_number (of_Z 120) = true.
Proof.
  split; [|split].
  - apply (proj1 (results_are_numbers two_and_a_half neg_half (of_Z 1) 0 eq_refl eq_refl)).
  - apply (proj1 (proj2 (results_are_numbers two_and_a_half neg_half (of_Z 1) 0 eq_refl eq_refl))).
  - apply (proj2 (proj2 (results_are_numbers (of_Z 5) (of_Z 5) (of_Z 120) 6 eq_refl eq_refl))).
    vm_compute. reflexivity.
Defined.

(** X15: doubling by [add] and by [multiply] agree on every Number:
    [add(x, x)] is [multiply(2, x)], rounding, overflow to an infinity and
    the signed zeros included. *)
Theorem add_self_multiply_two (x : number) :
  is_number x = true -> add x x = multiply (of_Z 2) x.
Proof. intros Hx. unfold add, multiply. now apply add_self. Qed.

Lemma add_self_multiply_two_witness :
  add neg_half neg_half = multiply (of_Z 2) neg_half.
Proof. apply (add_self_multiply_two neg_half). reflexivity. Defined.

(** *** Where the factorial stops being a Number *)

(** A positive integer is an odd number times a power of two. *)
Lemma odd_part (p : positive) :
  exists o b, Zpos p = o * 2 ^ b /\ 0 <= b /\ Z.odd o = true /\ 1 <= o.
Proof.
  induction p as [p _|p (o & b & Hp & Hb & Ho & Ho1)|].
  - exists (Zpos p~1), 0. now rewrite Z.mul_1_r.
  - exists o, (b + 1). rewrite Z.pow_add_r, Pos2Z.inj_xO, Hp by lia.
    change (2 ^ 1) with 2. split; [ring|]. split; [lia|]. now split.
  - exists 1, 0. now split.
Qed.

(** From [23!] on, the odd part of the factorial has more than 53 binary
    digits. *)
Lemma fact_odd_part (n : nat) :
  (23 <= n)%nat ->
  exists c a, fact n = c * 2 ^ a /\ 0 <= a /\ Z.odd c = true /\ 2 ^ 53 <= c.
Proof.
  induction 1 as [|n Hn (c & a & Hf & Ha & Hc & Hc53)].
  - exists 49308808782358125, 19.
    split; [vm_compute; reflexivity|]. split; [lia|]. split; [reflexivity|].
    change (2 ^ 53) with 9007199254740992. lia.
  - destruct (odd_part (Pos.of_succ_nat n)) as (o & b & Ho & Hb & Hodd & Ho1).
    exists (o * c), (b + a).
    change (fact (S n)) with (Zpos (Pos.of_succ_nat n) * fact n).
    rewrite Hf, Ho, Z.pow_add_r by lia.
    split; [ring|]. split; [lia|]. split; [now rewrite Z.odd_mul, Hodd, Hc|nia].
Qed.

(** An integer whose odd part has more than 53 digits is no mantissa
    times a power of two. *)
Lemma odd_part_large (c a j i : Z) :
  Z.odd c = true -> 2 ^ 53 <= c -> 0 <= a -> 0 <= i -> 0 < j ->
  c * 2 ^ a = j * 2 ^ i -> 2 ^ 53 <= j.
Proof.
  intros Hc Hc53 Ha Hi Hj Heq.
  destruct (Z.le_gt_cases i a) as [Hle|Hgt].
  - replace a with (a - i + i) in Heq by lia. rewrite Z.pow_add_r, Z.mul_assoc in Heq by lia.
    apply Z.mul_cancel_r in Heq; [|apply Z.pow_nonzero; lia].
    assert (0 < 2 ^ (a - i)) by (apply Z.pow_pos_nonneg; lia). nia.
  - exfalso. replace i with (i - a - 1 + 1 + a) in Heq by lia.
    rewrite !Z.pow_add_r, !Z.mul_assoc in Heq by lia.
    apply Z.mul_cancel_r in Heq; [|apply Z.pow_nonzero; lia].
    change (2 ^ 1) with 2 in Heq. rewrite Heq, Z.odd_mul in Hc.
    now rewrite andb_false_r in Hc.
Qed.

(** The positive integers that are Numbers: a mantissa below [2^53] times
    a power of two. *)
Lemma to_Z_mantissa (r : number) (k : Z) :
  is_number r = true -> to_Z r = Some k -> 0 < k ->
  exists j i, k = j * 2 ^ i /\ 0 <= i /\ 0 < j < 2 ^ 53.
Proof.
  intros Hv Hz Hk. destruct r as [s|s| |s m e]; try discriminate.
  { injection Hz as <-. lia. }
  apply valid_finite in Hv as [Hc _].
  apply canonical_digits in Hc as (Hd & _ & _).
  pose proof (digits2_bounds m) as [_ Hhi].
  assert (Hm : Zpos m < 2 ^ 53).
  { assert (2 ^ Zpos (digits2_pos m) <= 2 ^ 53) by (apply Z.pow_le_mono_r; lia). lia. }
  cbn [to_Z] in Hz. destruct (Z.leb_spec 0 e) as [He|He].
  - injection Hz as <-. destruct s; cbn [cond_Zopp] in *.
    + assert (0 < 2 ^ e) by (apply Z.pow_pos_nonneg; lia). nia.
    + exists (Zpos m), e. split; [reflexivity|]. split; [easy|lia].
  - destruct (Z.eqb_spec (Zpos m mod 2 ^ (- e)) 0) as [Hmod|]; [|discriminate].
    injection Hz as <-.
    assert (Hp : 0 < 2 ^ (- e)) by (apply Z.pow_pos_nonneg; lia).
    assert (Hq : 0 <= Zpos m / 2 ^ (- e) <= Zpos m).
    { split; [apply Z.div_pos; lia|]. apply Z.div_le_upper_bound; [lia|]. nia. }
    destruct s; cbn [cond_Zopp] in *; [lia|].
    exists (Zpos m / 2 ^ (- e)), 0. rewrite Z.mul_1_r. split; [reflexivity|]. lia.
Qed.

Lemma of_Z_is_number (n : Z) : is_number (of_Z n) = true.
Proof.
  apply binary_normalize_is_number.
Qed.

Lemma fact_pos (n : nat) : 0 < fact n.
Proof.
  induction n as [|n IH]; [reflexivity|].
  change (fact (S n)) with (Z.of_nat (S n) * fact n). lia.
Qed.

(** From [n = 23] on, what [factorial(n)] returns is not [n!]. *)
Lemma factorial_not_exact (n : nat) :
  (23 <= n)%nat -> Z.of_nat n < 2 ^ 53 ->
  exists r, factorial (S n) (of_Z (Z.of_nat n)) = Some (Return r)
            /\ to_Z r <> Some (fact n).
Proof.
  intros Hn Hsafe. destruct (factorial_safe_returns n Hsafe) as [r Hr].
  exists r. split; [exact Hr|]. intros Hz.
  pose proof (factorial_is_number _ _ _ (of_Z_is_number _) Hr) as Hv.
  destruct (to_Z_mantissa r (fact n) Hv Hz (fact_pos n)) as (j & i & Hji & Hi & Hj).
  destruct (fact_odd_part n Hn) as (c & a & Hca & Ha & Hc & Hc53).
  pose proof (odd_part_large c a j i Hc Hc53 Ha Hi ltac:(lia) ltac:(congruence)). lia.
Qed.

End NumberResults.

(** ** Stored properties and chained defaults *)

Section StoredProperties.

Variable wrapper : Value -> object.

Lemma find_property_insert (properties : gmap string property) (prototype : option object)
    (key : string) (p : property) :
  find_property (Object (<[key := p]> properties) prototype) key = Some p.
Proof. destruct prototype; simpl; now rewrite lookup_insert_eq. Qed.

(** X12: a value stored as an own property of the object stored as the own
    property [nested] is what [getNestedProperty] returns, whatever else the
    two objects and their prototype chains hold. *)
Theorem getNestedProperty_stored
    (properties nested_properties : gmap string property)
    (prototype nested_prototype : option object) (prop : string) (v : Value) :
  getNestedProperty wrapper
    (VObject (Object
       (<["nested" := DataProperty
            (VObject (Object (<[prop := DataProperty v]> nested_properties) nested_prototype))]>
          properties) prototype)) prop
  = Return v.
Proof.
  set (nested := VObject (Object (<[prop := DataProperty v]> nested_properties) nested_prototype)).
  set (o := Object (<["nested" := DataProperty nested]> properties) prototype).
  rewrite (getNestedProperty_nested wrapper (VObject o) nested prop o);
    [|reflexivity|apply find_property_insert].
  unfold nested, GetV. cbn [is_nullish ToObject].
  now rewrite Get_find_property, find_property_insert.
Qed.

End StoredProperties.

(** X11: defaults chain: [(a ?? b) ?? c] is [a ?? (b ?? c)], and [a ?? b]
    is [null] or [undefined] only if both [a] and [b] are. *)
Theorem getValueOrDefault_chain (a b c : Value) :
  getValueOrDefault (getValueOrDefault a b) c = getValueOrDefault a (getValueOrDefault b c)
  /\ is_nullish (getValueOrDefault a b) = is_nullish a && is_nullish b.
Proof. unfold getValueOrDefault. destruct a; cbn; split; try reflexivity; now destruct b. Qed.

(** ** Reads that run code *)

Section EffectsFacts.

Context {code state : Type}.
Variable call : code -> Effects.Value code -> string -> state
                -> outcome (Effects.Value code) * state.
Variable wrapper : Effects.Value code -> Effects.object code.

(** A read gives the value found, or what the code it reaches does. *)
Lemma Get_resolve (o : Effects.object code) (key : string)
    (receiver : Effects.Value code) (s : state) :
  Effects.Get call o key receiver s =
  match Effects.resolve o key with
  | Effects.Found v => (Return v, s)
  | Effects.Runs c => call c receiver key s
  end.
Proof.
  revert o. fix IH 1. intros [properties [parent|]|get]; simpl.
  - destruct (properties !! key) as [[v|getter]|]; try reflexivity. apply IH.
  - now destruct (properties !! key) as [[v|getter]|].
  - reflexivity.
Qed.

(** Where neither read runs code, the result is the same in every state,
    and the state is left as it was. *)
Lemma getNestedProperty_data (obj : Effects.Value code) (prop : string)
    (v : Effects.Value code) (s : state) :
  Effects.data_result wrapper obj prop = Some v ->
  Effects.getNestedProperty call wrapper obj prop s = (Return v, s).
Proof.
  unfold Effects.data_result, Effects.getNestedProperty, Effects.GetV.
  destruct (Effects.is_nullish obj); [now intros [= <-]|].
  destruct (Effects.ToObject wrapper obj) as [o|e]; [|discriminate].
  rewrite Get_resolve.
  destruct (Effects.resolve o "nested") as [nested|c]; [|discriminate].
  destruct (Effects.is_nullish nested); [now intros [= <-]|].
  destruct (Effects.ToObject wrapper nested) as [o'|e]; [|discriminate].
  rewrite Get_resolve.
  destruct (Effects.resolve o' prop) as [v'|c]; [|discriminate].
  now intros [= <-].
Qed.

Lemma resolve_insert_ne (properties : gmap string (Effects.property code))
    (prototype : option (Effects.object code)) (key key' : string) (p : Effects.property code) :
  key <> key' ->
  Effects.resolve (Effects.Object (<[key := p]> properties) prototype) key'
  = Effects.resolve (Effects.Object properties prototype) key'.
Proof. intros Hk. destruct prototype; simpl; now rewrite lookup_insert_ne. Qed.

Lemma resolve_delete_ne (properties : gmap string (Effects.property code))
    (prototype : option (Effects.object code)) (key key' : string) :
  key <> key' ->
  Effects.resolve (Effects.Object (delete key properties) prototype) key'
  = Effects.resolve (Effects.Object properties prototype) key'.
Proof. intros Hk. destruct prototype; simpl; now rewrite lookup_delete_ne. Qed.

Lemma data_result_resolve (o o' : Effects.object code) (prop : string) :
  Effects.resolve o "nested" = Effects.resolve o' "nested" ->
  Effects.data_result wrapper (Effects.VObject o) prop
  = Effects.data_result wrapper (Effects.VObject o') prop.
Proof. intros Hr. unfold Effects.data_result. cbn. now rewrite Hr. Qed.


End EffectsFacts.


(** * The specification's claims *)

Section Claims.
Import Number NumberFacts.

(** C1: for every integer [n < 0], [factorial(n)] raises an error carrying
    exactly the message "Factorial not defined for negative numbers", and
    a negative argument is the only condition under which [factorial]
    raises: whenever a call on an integer raises, the integer is negative
    and the error is that one. *)
Theorem factorial_raises_iff_negative (n : Z) (fuel : nat) (e : exception) :
  (n < 0 ->
   factorial (S fuel) (of_Z n)
   = Some (Throw (Error "Factorial not defined for negative numbers")))
  /\ (factorial fuel (of_Z n) = Some (Throw e) ->
      n < 0 /\ e = Error "Factorial not defined for negative numbers").
Proof.
  assert (Hneg : forall k, n < 0 ->
            factorial (S k) (of_Z n) = Some (Throw (Error negative_message))).
  { intros k Hn. rewrite factorial_S. now rewrite of_Z_negative. }
  split; [apply Hneg|].
  intros He. destruct (Z.lt_ge_cases n 0) as [Hn|Hn].
  - split; [easy|]. destruct fuel as [|k]; [discriminate|].
    rewrite (Hneg k Hn) in He. now injection He as <-.
  - exfalso. revert He. apply factorial_no_throw, of_Z_nonneg. lia.
Qed.

Lemma factorial_raises_iff_negative_witness :
  factorial 1 (of_Z (-1))
  = Some (Throw (Error "Factorial not defined for negative numbers"))
  /\ (-1 < 0 /\ Error negative_message = Error "Factorial not defined for negative numbers").
Proof.
  split.
  - apply (proj1 (factorial_raises_iff_negative (-1) 0 TypeError)). lia.
  - apply (proj2 (factorial_raises_iff_negative (-1) 1 (Error negative_message))).
    vm_compute. reflexivity.
Defined.

(** C10: [factorial] raises the error with message "Factorial not defined
    for negative numbers" for every Number below zero, integer or not: the
    negativity check comes before the base cases and the recursion. *)
Theorem factorial_negative_raises (x : number) (fuel : nat) :
  (x <? of_Z 0)%num = true ->
  factorial (S fuel) x
  = Some (Throw (Error "Factorial not defined for negative numbers")).
Proof. intros Hx. rewrite factorial_S. now rewrite Hx. Qed.

Lemma factorial_negative_raises_witness :
  is_number neg_half = true /\
  factorial 1 neg_half
  = Some (Throw (Error "Factorial not defined for negative numbers")).
Proof. split; [reflexivity|]. apply (factorial_negative_raises neg_half 0). reflexivity. Defined.

(** C2, as stated, fails: [factorial(23)] is not the integer [23!]; the
    product [23 * 22!] has been rounded to binary64. *)
Lemma factorial_23_not_exact :
  ~ (forall n : nat, exists fuel r,
       factorial fuel (of_Z (Z.of_nat n)) = Some (Return r)
       /\ to_Z r = Some (fact n)).
Proof.
  intros H. destruct (H 23%nat) as (fuel & r & Hr & Hz).
  change (Z.of_nat 23) with 23 in Hr.
  assert (H23 : factorial 24 (of_Z 23)
                = Some (Return (S754_finite false 6163601097794766 22)))
    by (vm_compute; reflexivity).
  pose proof (factorial_fuel_unique _ _ _ _ _ Hr H23) as Heq.
  injection Heq as ->. clear - Hz. vm_compute in Hz. discriminate Hz.
Qed.

(** C2, amended: for every integer [0 <= n <= 22], [factorial(n)] returns
    exactly [n!]; [factorial(0)] and [factorial(1)] are [1] and
    [factorial(5)] is [120]; for every integer [2 <= n <= 2^53 - 1] the
    result is the Number product [n * factorial(n - 1)], which is rounded
    to binary64: for every [n] from [23] on, what [factorial(n)] returns
    is no longer [n!] ([factorial(23)] is [25852016738884978212864]), and
    at [n = 171] it is [Infinity]. *)
Theorem factorial_exact_up_to_22 (n : nat) (k : Z) (fuel : nat) :
  ((n <= 22)%nat ->
   exists r, factorial (S n) (of_Z (Z.of_nat n)) = Some (Return r)
             /\ to_Z r = Some (fact n))
  /\ (2 <= k <= MAX_SAFE_INTEGER ->
      factorial (S fuel) (of_Z k)
      = match factorial fuel (of_Z (k - 1)) with
        | Some (Return r) => Some (Return (of_Z k * r)%num)
        | Some (Throw e) => Some (Throw e)
        | None => None
        end)
  /\ factorial (S fuel) (of_Z 0) = Some (Return (of_Z 1))
  /\ factorial (S fuel) (of_Z 1) = Some (Return (of_Z 1))
  /\ factorial 5 (of_Z 5) = Some (Return (of_Z 120))
  /\ (exists r, factorial 24 (of_Z 23) = Some (Return r)
                /\ to_Z r = Some 25852016738884978212864)
  /\ ((23 <= n)%nat -> Z.of_nat n <= MAX_SAFE_INTEGER ->
      exists r, factorial (S n) (of_Z (Z.of_nat n)) = Some (Return r)
                /\ to_Z r <> Some (fact n))
  /\ factorial 171 (of_Z 171) = Some (Return Infinity).
Proof.
  unfold MAX_SAFE_INTEGER.
  split; [|split; [|split; [|split; [|split; [|split; [|split]]]]]].
  - intros Hn.
    do 23 (destruct n as [|n];
           [eexists; split; vm_compute; reflexivity|]).
    lia.
  - intros Hk.
    rewrite factorial_step
      by (first [apply lt_zero_safe|apply eq_zero_safe|apply eq_one_safe]; lia).
    now rewrite sub_one_safe by lia.
  - reflexivity.
  - reflexivity.
  - vm_compute; reflexivity.
  - eexists; split; vm_compute; reflexivity.
  - intros Hn Hsafe. apply factorial_not_exact; [exact Hn|lia].
  - vm_compute; reflexivity.
Qed.

Lemma factorial_exact_up_to_22_witness :
  (exists r, factorial 6 (of_Z 5) = Some (Return r) /\ to_Z r = Some 120)
  /\ factorial 4 (of_Z 3)
     = match factorial 3 (of_Z 2) with
       | Some (Return r) => Some (Return (of_Z 3 * r)%num)
       | Some (Throw e) => Some (Throw e)
       | None => None
       end
  /\ (exists r, factorial 31 (of_Z 30) = Some (Return r) /\ to_Z r <> Some (fact 30)).
Proof.
  split; [|split].
  - apply (proj1 (factorial_exact_up_to_22 5 3 3)). lia.
  - apply (proj1 (proj2 (factorial_exact_up_to_22 5 3 3))). vm_compute. split; discriminate.
  - apply (proj1 (proj2 (proj2 (proj2 (proj2 (proj2 (proj2
             (factorial_exact_up_to_22 30 3 3)))))))); [lia|].
    vm_compute. discriminate.
Defined.

(** C5, as stated, fails: on the integer [2^53 + 4] the recursion never
    reaches a base case, because [n - 1] rounds back to [n]. *)
Lemma factorial_diverges_above_safe :
  ~ (forall n : Z, 0 <= n -> exists fuel, factorial fuel (of_Z n) <> None).
Proof.
  intros H. destruct (H stuck_integer) as [fuel Hfuel]; [unfold stuck_integer; lia|].
  apply Hfuel, stuck_integer_diverges.
Qed.

(** C5, amended: for every integer [n >= 0], [factorial(n)] terminates
    if and only if [n <= 2^53 + 2].  Up to [2^53 - 1]
    ([Number.MAX_SAFE_INTEGER]) the argument of the recursive call is
    exactly [n - 1] and the recursion reaches a base case at depth [n + 1]
    at most.  From [2^53 + 3] on, [n - 1] is rounded to a Number that
    subtracting one leaves from [2^53 + 4] on, and the recursion never
    reaches a base case. *)
Theorem factorial_terminates_iff (n : Z) :
  0 <= n ->
  ((exists fuel r, factorial fuel (of_Z n) = Some (Return r)) <-> n <= 2 ^ 53 + 2)
  /\ (n <= MAX_SAFE_INTEGER ->
      (exists r, factorial (S (Z.to_nat n)) (of_Z n) = Some (Return r))
      /\ (1 <= n -> (of_Z n - of_Z 1)%num = of_Z (n - 1)))
  /\ (2 ^ 53 + 3 <= n -> forall fuel, factorial fuel (of_Z n) = None).
Proof.
  unfold MAX_SAFE_INTEGER. intros Hn.
  assert (Hbeyond : 2 ^ 53 + 3 <= n -> forall fuel, factorial fuel (of_Z n) = None).
  { intros Hn' fuel. now apply beyond_safe_diverges, of_Z_beyond_safe. }
  split; [split|split].
  - intros (fuel & r & Hr).
    destruct (Z.le_gt_cases n (2 ^ 53 + 2)) as [|Hgt]; [assumption|].
    rewrite Hbeyond in Hr by lia. discriminate Hr.
  - intros Hle. destruct (Z.lt_ge_cases n (2 ^ 53)) as [Hlt|Hge].
    + apply factorial_safe_terminates. lia.
    + apply factorial_near_safe. lia.
  - intros Hsafe. split.
    + destruct (factorial_safe_returns (Z.to_nat n)) as [r Hr]; [lia|].
      exists r. now rewrite Z2Nat.id in Hr by lia.
    + intros Hn1. apply sub_one_safe. lia.
  - exact Hbeyond.
Qed.

Lemma factorial_terminates_iff_witness :
  (exists fuel r, factorial fuel (of_Z 5) = Some (Return r))
  /\ (exists r, factorial 6 (of_Z 5) = Some (Return r))
  /\ (of_Z 5 - of_Z 1)%num = of_Z 4
  /\ factorial 7 (of_Z stuck_power) = None.
Proof.
  pose proof (factorial_terminates_iff 5 ltac:(lia)) as (Hiff & Hsafe & _).
  pose proof (factorial_terminates_iff stuck_power ltac:(unfold stuck_power; lia))
    as (_ & _ & Hbeyond).
  destruct Hsafe as [Hr Hsub]; [unfold MAX_SAFE_INTEGER; lia|].
  split; [|split; [|split]].
  - apply (proj2 Hiff). lia.
  - exact Hr.
  - apply Hsub. lia.
  - apply Hbeyond. unfold stuck_power. lia.
Defined.

(** C6, as stated, fails: [multiply(Infinity, 0)] is [NaN], not [0]. *)
Lemma multiply_infinity_zero :
  multiply Infinity (of_Z 0) = NaN
  /\ (multiply Infinity (of_Z 0) === of_Z 0)%num = false.
Proof. split; reflexivity. Qed.

(** C6, amended: for all Numbers [a] and [b], [multiply(a, b)] and
    [multiply(b, a)] are the same value (and compare equal unless the
    product is [NaN]); [multiply(a, 0)] is a zero, so equal to [0], for
    every finite [a]. *)
Theorem multiply_comm_zero (a b : number) :
  multiply a b = multiply b a
  /\ (is_nan (multiply a b) = false -> (multiply a b === multiply b a)%num = true)
  /\ (is_finite a = true -> (multiply a (of_Z 0) === of_Z 0)%num = true).
Proof.
  unfold multiply. split; [apply mul_comm|split].
  - intros Hn. now apply strict_equals_eq; [apply mul_comm|].
  - apply mul_zero_r.
Qed.

Lemma multiply_comm_zero_witness :
  (multiply (of_Z 3) (of_Z 4) === multiply (of_Z 4) (of_Z 3))%num = true
  /\ (multiply (of_Z (-7)) (of_Z 0) === of_Z 0)%num = true.
Proof.
  split.
  - apply (proj1 (proj2 (multiply_comm_zero (of_Z 3) (of_Z 4)))). reflexivity.
  - apply (proj2 (proj2 (multiply_comm_zero (of_Z (-7)) (of_Z 4)))). reflexivity.
Defined.

(** C7, as stated, fails: [add(NaN, 0)] is [NaN], which equals nothing,
    itself included; and [add(-0, 0)] is [+0], which equals [-0] but is
    another value. *)
Lemma add_zero_not_identity :
  (add NaN (of_Z 0) === NaN)%num = false
  /\ add neg_zero (of_Z 0) = of_Z 0
  /\ of_Z 0 <> neg_zero.
Proof. repeat split. discriminate. Qed.

(** C7, amended: for all Numbers [a] and [b], [add(a, b)] and
    [add(b, a)] are the same value (and compare equal unless the sum is
    [NaN]); [add(a, 0)] equals [a] for every [a] other than [NaN], and is
    the same value as [a] for every [a] other than [-0]. *)
Theorem add_comm_zero (a b : number) :
  add a b = add b a
  /\ (is_nan (add a b) = false -> (add a b === add b a)%num = true)
  /\ (is_nan a = false -> (add a (of_Z 0) === a)%num = true)
  /\ (a <> neg_zero -> add a (of_Z 0) = a).
Proof.
  unfold add. split; [apply add_comm|split; [|split]].
  - intros Hn. now apply strict_equals_eq; [apply add_comm|].
  - apply add_zero_r_strict.
  - apply add_zero_r.
Qed.

Lemma add_comm_zero_witness :
  (add (of_Z 2) (of_Z 3) === add (of_Z 3) (of_Z 2))%num = true
  /\ (add (of_Z (-1)) (of_Z 0) === of_Z (-1))%num = true
  /\ add (of_Z 5) (of_Z 0) = of_Z 5.
Proof.
  split; [|split].
  - apply (proj1 (proj2 (add_comm_zero (of_Z 2) (of_Z 3)))). reflexivity.
  - apply (proj1 (proj2 (proj2 (add_comm_zero (of_Z (-1)) (of_Z 3))))). reflexivity.
  - apply (proj2 (proj2 (proj2 (add_comm_zero (of_Z 5) (of_Z 3))))). discriminate.
Defined.

End Claims.

(** ** Claims on language values *)

(** C3: [getValueOrDefault(value, defaultValue)] returns [defaultValue]
    exactly when [value] is [null] or [undefined], and returns [value]
    itself for every other input, the falsy [0], [''] and [false] included. *)
Theorem getValueOrDefault_nullish (value defaultValue : Value) :
  (value = VUndefined \/ value = VNull ->
   getValueOrDefault value defaultValue = defaultValue)
  /\ (value <> VUndefined -> value <> VNull ->
      getValueOrDefault value defaultValue = value)
  /\ (getValueOrDefault value defaultValue = defaultValue -> value <> defaultValue ->
      value = VUndefined \/ value = VNull)
  /\ getValueOrDefault (VNumber (Number.of_Z 0)) defaultValue = VNumber (Number.of_Z 0)
  /\ getValueOrDefault (VString "") defaultValue = VString ""
  /\ getValueOrDefault (VBoolean false) defaultValue = VBoolean false.
Proof.
  unfold getValueOrDefault. repeat split.
  - now intros [-> | ->].
  - intros H1 H2. now destruct value.
  - intros H1 H2. destruct value; auto; now elim H2.
Qed.

Lemma getValueOrDefault_nullish_witness :
  getValueOrDefault VNull (VString "default") = VString "default"
  /\ getValueOrDefault VUndefined (VString "default") = VString "default"
  /\ getValueOrDefault (VNumber (Number.of_Z 0)) (VString "default")
     = VNumber (Number.of_Z 0)
  /\ (VNull = VUndefined \/ VNull = VNull).
Proof.
  split; [|split; [|split]]; cycle 3.
  - apply (proj1 (proj2 (proj2 (getValueOrDefault_nullish VNull (VString "default")))));
      [reflexivity|discriminate].
  - apply (proj1 (getValueOrDefault_nullish VNull (VString "default"))). now right.
  - apply (proj1 (getValueOrDefault_nullish VUndefined (VString "default"))). now left.
  - apply (proj1 (proj2 (getValueOrDefault_nullish (VNumber (Number.of_Z 0))
                           (VString "default")))); discriminate.
Defined.

(** C4, as stated, fails: the sub-structure [{}] of [{ nested: {} }] has no
    entry of its own named [toString], and [getNestedProperty] returns the
    inherited [Object.prototype.toString], not [undefined]. *)
Lemma getNestedProperty_inherited_entry :
  GetOwnProperty (literal (Some Object_prototype) []) "toString" = None
  /\ getNestedProperty bare_wrapper empty_nested_obj "toString"
     = Return (VObject toString_function).
Proof. split; vm_compute; reflexivity. Qed.

(** C4, amended: [getNestedProperty(container, propertyName)] returns
    [undefined] if the container is [null] or [undefined], or no property
    [nested] is found on it, or the value stored under [nested] is [null]
    or [undefined], or no property named [propertyName] is found on the
    sub-structure under [nested]; otherwise it returns the value stored in
    the property found.  A property is found when the object has it or
    inherits it through its prototype chain.  None of these cases
    raises. *)
Theorem getNestedProperty_cases
    (wrapper : Value -> object) (container : Value) (propertyName : string) :
  (is_nullish container = true ->
   getNestedProperty wrapper container propertyName = Return VUndefined)
  /\ (forall o, ToObject wrapper container = Return o ->
      HasProperty o "nested" = false ->
      getNestedProperty wrapper container propertyName = Return VUndefined)
  /\ (forall o sub, ToObject wrapper container = Return o ->
      find_property o "nested" = Some (DataProperty sub) ->
      is_nullish sub = true ->
      getNestedProperty wrapper container propertyName = Return VUndefined)
  /\ (forall o sub o', ToObject wrapper container = Return o ->
      find_property o "nested" = Some (DataProperty sub) ->
      ToObject wrapper sub = Return o' ->
      HasProperty o' propertyName = false ->
      getNestedProperty wrapper container propertyName = Return VUndefined)
  /\ (forall o sub o' v, ToObject wrapper container = Return o ->
      find_property o "nested" = Some (DataProperty sub) ->
      ToObject wrapper sub = Return o' ->
      find_property o' propertyName = Some (DataProperty v) ->
      getNestedProperty wrapper container propertyName = Return v).
Proof.
  split; [apply getNestedProperty_nullish|]. split; [|split; [|split]].
  - intros o. apply getNestedProperty_no_nested.
  - intros o sub Ho Hf Hs. now rewrite (getNestedProperty_nested _ _ sub _ o), Hs.
  - intros o sub o' Ho Hf Ho' Hf'%HasProperty_false.
    rewrite (getNestedProperty_nested _ _ sub _ o), (ToObject_is_nullish _ _ _ Ho') by easy.
    unfold GetV. now rewrite Ho', Get_find_property, Hf'.
  - intros o sub o' v Ho Hf Ho' Hf'.
    rewrite (getNestedProperty_nested _ _ sub _ o), (ToObject_is_nullish _ _ _ Ho') by easy.
    unfold GetV. now rewrite Ho', Get_find_property, Hf'.
Qed.

Lemma getNestedProperty_cases_witness :
  getNestedProperty bare_wrapper (test_obj None) "foo" = Return (VString "bar")
  /\ getNestedProperty bare_wrapper VNull "foo" = Return VUndefined
  /\ getNestedProperty bare_wrapper (VObject (literal None [])) "foo" = Return VUndefined
  /\ getNestedProperty bare_wrapper (test_obj None) "baz" = Return VUndefined
  /\ getNestedProperty bare_wrapper null_nested_obj "foo" = Return VUndefined.
Proof.
  split; [|split; [|split; [|split]]]; cycle 4.
  - eapply (proj1 (proj2 (proj2
      (getNestedProperty_cases bare_wrapper null_nested_obj "foo"))));
      vm_compute; reflexivity.
  - eapply (proj2 (proj2 (proj2 (proj2
      (getNestedProperty_cases bare_wrapper (test_obj None) "foo")))));
      vm_compute; reflexivity.
  - apply (proj1 (getNestedProperty_cases bare_wrapper VNull "foo")). reflexivity.
  - eapply (proj1 (proj2
      (getNestedProperty_cases bare_wrapper (VObject (literal None [])) "foo")));
      vm_compute; reflexivity.
  - eapply (proj1 (proj2 (proj2 (proj2
      (getNestedProperty_cases bare_wrapper (test_obj None) "baz")))));
      vm_compute; reflexivity.
Defined.






